(** * Dialogue orchestrator: session store, dedup caches, region search
      and the two turn-execution disciplines.

    A shallow embedding of [scripts/session_manager.py],
    [scripts/recommend_ba.py], [chatbot/chatbot_modules/search_info.py] and
    [scripts/conversation_engine.py].  Python dictionaries that are used as
    maps are [gmap]s, the per-user dedup sets are [gset]s, exceptions are the
    [Raise] branch of [result], and everything the program obtains from the
    outside (language model, vector index, clock) is read from an oracle
    indexed by the number of requests made so far, so that two calls with the
    same arguments may be answered differently. *)

From Stdlib Require Import ZArith.
From stdpp Require Import gmap strings list sorting.

(** ** Python values and exceptions *)

Module Py.

(** The outcome of evaluating a Python expression: a value, or a raised
    [Exception] carrying its [str()]. *)
Inductive result (A : Type) : Type :=
| Ok (a : A)
| Raise (e : string).
Arguments Ok {A} a.
Arguments Raise {A} e.

(** JSON values as they sit in profiles, tool arguments and vector metadata.
    Numbers, lists and objects are never inspected by the program: each is
    kept as [VOther] with its [str()] and its truth value. *)
Inductive pyval : Type :=
| VNone
| VBool (b : bool)
| VStr (s : string)
| VOther (shown : string) (truth : bool).

(** [bool(s)] for a string. *)
Definition nonempty (s : string) : bool := negb (String.eqb s "").

(** Python truthiness. *)
Definition truthy (v : pyval) : bool :=
  match v with
  | VNone => false
  | VBool b => b
  | VStr s => nonempty s
  | VOther _ t => t
  end.

(** [a or b]. *)
Definition py_or (a b : pyval) : pyval := if truthy a then a else b.

(** [d.get(k)]: a missing key reads as [None]. *)
Definition dict_get (d : gmap string pyval) (k : string) : pyval :=
  default VNone (d !! k).

(** An optional string that passes [if s:], that is neither [None] nor
    empty. *)
Definition given (s : option string) : option string :=
  match s with
  | Some r => if nonempty r then Some r else None
  | None => None
  end.

(** [str(v)], as an f-string renders it. *)
Definition py_str (v : pyval) : string :=
  match v with
  | VNone => "None"
  | VBool true => "True"
  | VBool false => "False"
  | VStr s => s
  | VOther shown _ => shown
  end.

(** [a or b] for an optional string [a] ([None] when the key is missing or
    null) and a string [b]. *)
Definition str_or (a : option string) (b : string) : string :=
  match a with
  | Some s => if nonempty s then s else b
  | None => b
  end.

(** [sep.join(l)]. *)
Fixpoint join (sep : string) (l : list string) : string :=
  match l with
  | [] => ""
  | [x] => x
  | x :: rest => x +:+ sep +:+ join sep rest
  end.

(** The one-character string holding a line feed. *)
Definition newline : string := String (Ascii.ascii_of_nat 10) EmptyString.

(** [p] is a prefix of [s]. *)
Fixpoint is_prefix (p s : string) : bool :=
  match p, s with
  | EmptyString, _ => true
  | String a p', String b s' => if Ascii.eqb a b then is_prefix p' s' else false
  | String _ _, EmptyString => false
  end.

(** [sub in s]: substring containment. *)
Fixpoint contains (sub s : string) : bool :=
  is_prefix sub s ||
  match s with
  | EmptyString => false
  | String _ s' => contains sub s'
  end.

(** *** Stateful, fallible computations

    A computation reads and writes a state of type [W] and either returns or
    raises; state changes made before an exception stay in place, as
    mutations do in Python. *)
Definition M (W A : Type) : Type := W → result A * W.

#[export] Instance M_ret {W} : MRet (M W) := λ A a w, (Ok a, w).

#[export] Instance M_bind {W} : MBind (M W) := λ A B k c w,
  match c w with
  | (Ok a, w') => k a w'
  | (Raise e, w') => (Raise e, w')
  end.

Definition raise {W A} (e : string) : M W A := λ w, (Raise e, w).

(** [try: c  except Exception as e: h e]. *)
Definition try_except {W A} (c : M W A) (h : string → M W A) : M W A := λ w,
  match c w with
  | (Ok a, w') => (Ok a, w')
  | (Raise e, w') => h e w'
  end.

Definition get_state {W} : M W W := λ w, (Ok w, w).
Definition put_state {W} (w : W) : M W () := λ _, (Ok (), w).

(** Run a computation on a component of the state. *)
Definition zoom {W V A} (get : W → V) (set : V → W → W) (c : M V A) : M W A := λ w,
  let '(r, v) := c (get w) in (r, set v w).

(** Lift an already evaluated outcome. *)
Definition of_result {W A} (r : result A) : M W A := λ w, (r, w).

End Py.
Import Py.

(** ** Session store ([scripts/session_manager.py]) *)

Module SessionManager.

Abbreviation profile := (gmap string pyval).

(** One element of [conversation_history]; [HJunk] is anything that is not
    an object with both a role and a content. *)
Inductive hist_item : Type :=
| HMsg (timestamp role content : string)
| HJunk.

(** The dictionary [load_session] returns. *)
Record session : Type := {
  user_id : option string;
  last_visit : option string;
  user_profile : profile;
  conversation_history : list hist_item;
}.

(** What a session file holds: unparsable text, or an object in which any
    of the fields may be missing. *)
Inductive session_file : Type :=
| Unreadable
| Json (f_user_id : option string) (f_last_visit : option string)
       (f_user_profile : option profile)
       (f_conversation_history : option (list hist_item)).

(** The [sessions/] directory.  [_get_file_path] joins the directory name
    with [<user_id>.json] and the file system resolves that path:
    [file_of uid] is the file it names, [None] when the path cannot be opened
    at all (a user id with a path separator that leads into a directory which
    is not there).  Two ids whose paths resolve to one file, such as [a] and
    [./a], share it.  The program creates no directory below [sessions/], so
    [file_of] never changes. *)
Record directory : Type := {
  contents : gmap string session_file;
  file_of : string → option string;
}.

(** What lies under the path of a user id; [None] where [os.path.exists] is
    false. *)
#[global] Instance directory_lookup : Lookup string session_file directory :=
  λ uid fs, match file_of fs uid with Some p => contents fs !! p | None => None end.

(** [open(path, "w")] followed by [json.dump]: the file is replaced; [None]
    where [open] raises. *)
Definition write_file (uid : string) (f : session_file) (fs : directory) : option directory :=
  match file_of fs uid with
  | Some p => Some {| contents := <[p := f]> (contents fs); file_of := file_of fs |}
  | None => None
  end.

(** A directory in which every id names a file of its own. *)
Definition flat (m : gmap string session_file) : directory :=
  {| contents := m; file_of := Some |}.

#[global] Instance directory_empty : Empty directory := flat ∅.

(** The [sessions/] directory together with the number of times the wall
    clock has been read. *)
Record store : Type := {
  files : directory;
  clock_reads : nat;
}.

(** The wall clock and the ISO-8601 codec of [datetime].  [datetime.now()]
    is a naive local time, in microseconds here; the call that [k] others
    preceded returns [now k].  [fromisoformat s] is the naive time that [s]
    denotes, as [update_last_visit] writes it, and [None] for every other
    string.  Among these, [has_utc_offset] tells the strings that the library
    parses to a time with a UTC offset: subtracting such a time from
    [datetime.now()] raises [TypeError]; on the others the library itself
    raises. *)
Record clock : Type := {
  now : nat → Z;
  isoformat : Z → string;
  fromisoformat : string → option Z;
  has_utc_offset : string → bool;
}.

Definition NAIVE_MINUS_AWARE : string :=
  "can't subtract offset-naive and offset-aware datetimes".

Definition default_file_profile : profile :=
  {[ "name" := VStr ""; "age" := VStr ""; "mobility" := VStr "";
     "activity_range" := VStr "" ]}.

Definition default_new_profile : profile :=
  {[ "name" := VStr ""; "mobility" := VStr ""; "emotion" := VStr "" ]}.

(** [load_session(user_id)], as a function of the directory. *)
Definition load_session_from (fs : directory) (uid : string) : session :=
  match fs !! uid with
  | Some (Json u lv pr h) =>
      {| user_id := u; last_visit := lv;
         user_profile := default default_file_profile pr;
         conversation_history := default [] h |}
  | Some Unreadable | None =>
      {| user_id := Some uid; last_visit := None;
         user_profile := default_new_profile; conversation_history := [] |}
  end.

Definition load_session (uid : string) : M store session :=
  st ← get_state; mret (load_session_from (files st) uid).

(** [save_session(user_id, data)]: a failing write is logged and
    swallowed. *)
Definition save_session (uid : string) (data : session) : M store () :=
  st ← get_state;
  match write_file uid (Json (user_id data) (last_visit data)
                             (Some (user_profile data))
                             (Some (conversation_history data))) (files st) with
  | Some fs => put_state {| files := fs; clock_reads := clock_reads st |}
  | None => mret ()
  end.

(** [datetime.now()]. *)
Definition datetime_now (c : clock) : M store Z :=
  st ← get_state;
  _ ← put_state {| files := files st; clock_reads := S (clock_reads st) |};
  mret (now c (clock_reads st)).

(** [if v: d[k] = v]. *)
Definition set_if_truthy (k : string) (v : pyval) (d : profile) : profile :=
  if truthy v then <[k := v]> d else d.

(** [_normalize_profile(profile, current)]. *)
Definition _normalize_profile (p current : profile) : profile :=
  let normalized := p ∪ current in
  let name := py_or (dict_get p "name") (dict_get p "A1") in
  let normalized := set_if_truthy "name" name normalized in
  let mobility := py_or (py_or (dict_get p "mobility") (dict_get p "A2")) (dict_get p "A4") in
  let activity_range :=
    py_or (py_or (dict_get p "activity_range") (dict_get p "A2")) (dict_get p "A4") in
  let emotion := py_or (dict_get p "emotion") (dict_get p "B1") in
  let normalized := set_if_truthy "mobility" mobility normalized in
  let normalized := set_if_truthy "activity_range" activity_range normalized in
  let normalized := set_if_truthy "emotion" emotion normalized in
  normalized.

Definition with_history (s : session) (h : list hist_item) : session :=
  {| user_id := user_id s; last_visit := last_visit s;
     user_profile := user_profile s; conversation_history := h |}.

Definition with_last_visit (s : session) (lv : option string) : session :=
  {| user_id := user_id s; last_visit := lv;
     user_profile := user_profile s;
     conversation_history := conversation_history s |}.

Definition with_profile (s : session) (p : profile) : session :=
  {| user_id := user_id s; last_visit := last_visit s;
     user_profile := p; conversation_history := conversation_history s |}.

(** [add_message(user_id, role, content)]. *)
Definition add_message (c : clock) (uid role content : string) : M store () :=
  s ← load_session uid;
  t ← datetime_now c;
  let message_entry := HMsg (isoformat c t) role content in
  save_session uid (with_history s (conversation_history s ++ [message_entry])).

(** [update_last_visit(user_id)]. *)
Definition update_last_visit (c : clock) (uid : string) : M store () :=
  s ← load_session uid;
  t ← datetime_now c;
  save_session uid (with_last_visit s (Some (isoformat c t))).

(** [update_user_profile(user_id, profile)]. *)
Definition update_user_profile (uid : string) (p : profile) : M store () :=
  s ← load_session uid;
  save_session uid (with_profile s (_normalize_profile p (user_profile s))).

Definition usec_per_day : Z := 86400000000.

(** [timedelta.days] of a difference given in microseconds. *)
Definition timedelta_days (d : Z) : Z := d `div` usec_per_day.

Definition greeting_first (title : string) : string :=
  "안녕하세요, " +:+ title +:+ " 오늘은 좀 어떠신가요?".
Definition greeting_continue (title : string) : string :=
  title +:+ " 다시 오셨군요. 이야기를 계속 나눠볼까요?".
Definition greeting_rested (title : string) : string :=
  title +:+ " 밤사이 편안하셨나요?".
Definition greeting_long_time (title : string) : string :=
  title +:+ " 오랜만에 오셨네요!".
Definition greeting_plain (title : string) : string :=
  "안녕하세요, " +:+ title.

(** The [title] of [get_welcome_message]. *)
Definition welcome_title (s : session) : string :=
  let name := py_or (default (VStr "") (user_profile s !! "name"))
                    (default (VStr "") (user_profile s !! "A1")) in
  if truthy name then py_str name +:+ "님" else "님".

(** [get_welcome_message(user_id)].  The subtraction is inside the [try]:
    a time with a UTC offset gives the plain greeting, like a string that
    does not parse. *)
Definition get_welcome_message (c : clock) (uid : string) : M store string :=
  s ← load_session uid;
  let title := welcome_title s in
  match given (last_visit s) with
  | None => mret (greeting_first title)
  | Some last_visit_str =>
      t ← datetime_now c;
      match fromisoformat c last_visit_str with
      | None => mret (greeting_plain title)
      | Some last =>
          let days_diff := timedelta_days (t - last) in
          if (days_diff =? 0)%Z then mret (greeting_continue title)
          else if (days_diff =? 1)%Z then mret (greeting_rested title)
          else mret (greeting_long_time title)
      end
  end.

End SessionManager.

(** ** Companion tools and their dedup caches ([scripts/recommend_ba.py]) *)

Module RecommendBa.

(** Metadata of a vector match.  The three label fields are strings when
    present (the caches are sets of strings); the two fields that are only
    printed are arbitrary values, [VNone] when missing. *)
Record metadata : Type := {
  activity_kr : option string;
  activity : option string;
  FEELING_TAGS : pyval;
  question_text : option string;
  intent : pyval;
}.

(** [{}], the metadata read off a match that carries none. *)
Definition no_metadata : metadata :=
  {| activity_kr := None; activity := None; FEELING_TAGS := VNone;
     question_text := None; intent := VNone |}.

Record vmatch : Type := { m_metadata : option metadata }.

(** The [filter=] argument of [index.query]. *)
Inductive index_filter : Type :=
| ActivityUpTo (energy_limit : Z)
| Question.

(** One embedding-plus-query round trip to the vector index. *)
Record index_request : Type := {
  rq_text : string;
  rq_top_k : Z;
  rq_filter : index_filter;
}.

(** [RULES["mappings"]]; dictionaries are kept in file order, a range
    without [max_energy] is [None]. *)
Record rules : Type := {
  emotion_to_feeling_tags : list (string * list string);
  mobility_to_energy_range : list (string * option Z);
}.

(** Module-level state: the two [defaultdict(set)] caches and the requests
    sent to the index so far. *)
Record state : Type := {
  recommended_activities_by_user : gmap string (gset string);
  asked_questions_by_user : gmap string (gset string);
  queries : list index_request;
}.

(** What the module is run against.  [ready] tells whether [_ensure_clients]
    leaves both [index] and [embeddings] set; [index_query k rq] is the list
    under ["matches"] answered to request [rq] when [k] requests came before
    it, or the exception raised; [top_keywords] is the keyword extraction run
    on the last five messages (tokens weighted by recency, stop words and
    numbers dropped, the five most frequent kept), whose result is only
    appended to the query text. *)
Record env : Type := {
  RULES : rules;
  ready : bool;
  index_query : nat → index_request → result (list vmatch);
  top_keywords : list string → list string;
}.

Definition DB_ERROR : string := "DB 연결 오류".
Definition NOTHING_NEW : string :=
  "이미 추천드린 활동과 겹쳐서 새로운 추천을 찾지 못했습니다. 다른 감정이나 상황을 알려주시면 새로 찾아볼게요.".
Definition NO_QUESTION : string := "적절한 질문이 없습니다.".

(** [embeddings.embed_query(text)] followed by [index.query(...)]. *)
Definition query_index (E : env) (rq : index_request) : M state (list vmatch) :=
  st ← get_state;
  _ ← put_state {| recommended_activities_by_user := recommended_activities_by_user st;
                   asked_questions_by_user := asked_questions_by_user st;
                   queries := queries st ++ [rq] |};
  of_result (index_query E (length (queries st)) rq).

(** [d[uid]] on a [defaultdict(set)]: the entry is created when absent. *)
Definition touch (uid : string) (d : gmap string (gset string)) : gmap string (gset string) :=
  <[uid := default ∅ (d !! uid)]> d.

(** [_recommended_activities_by_user[uid]]. *)
Definition recommended_of (uid : string) : M state (gset string) :=
  st ← get_state;
  _ ← put_state {| recommended_activities_by_user := touch uid (recommended_activities_by_user st);
                   asked_questions_by_user := asked_questions_by_user st;
                   queries := queries st |};
  mret (default ∅ (recommended_activities_by_user st !! uid)).

(** [_asked_questions_by_user[uid]]. *)
Definition asked_of (uid : string) : M state (gset string) :=
  st ← get_state;
  _ ← put_state {| recommended_activities_by_user := recommended_activities_by_user st;
                   asked_questions_by_user := touch uid (asked_questions_by_user st);
                   queries := queries st |};
  mret (default ∅ (asked_questions_by_user st !! uid)).

(** [already.update(seen_local)] on the set held under [uid]. *)
Definition update_set (uid : string) (seen_local : gset string)
    (d : gmap string (gset string)) : gmap string (gset string) :=
  <[uid := default ∅ (d !! uid) ∪ seen_local]> d.

Definition update_recommended (uid : string) (seen_local : gset string) : M state () :=
  st ← get_state;
  put_state {| recommended_activities_by_user :=
                 update_set uid seen_local (recommended_activities_by_user st);
               asked_questions_by_user := asked_questions_by_user st;
               queries := queries st |}.

Definition update_asked (uid : string) (seen_local : gset string) : M state () :=
  st ← get_state;
  put_state {| recommended_activities_by_user := recommended_activities_by_user st;
               asked_questions_by_user :=
                 update_set uid seen_local (asked_questions_by_user st);
               queries := queries st |}.

Definition activity_line (activity : string) (tags : pyval) : string :=
  "- " +:+ activity +:+ " (기대효과: " +:+ py_str tags +:+ ")".

Definition question_line (q_text : string) (intent : pyval) : string :=
  "- " +:+ q_text +:+ " (의도: " +:+ py_str intent +:+ ")".

(** [meta.get("activity_kr") or meta.get("activity") or ""]. *)
Definition activity_label (meta : metadata) : string :=
  str_or (activity_kr meta) (str_or (activity meta) "").

(** The [for match in res.get("matches", [])] loop of the recommender, from
    the point where [seen_local] and [results] have the given values. *)
Fixpoint pick_activities (already : gset string) (matches : list vmatch)
    (seen_local : gset string) (results : list string) : gset string * list string :=
  match matches with
  | [] => (seen_local, results)
  | m :: rest =>
      let meta := default no_metadata (m_metadata m) in
      let activity := activity_label meta in
      if negb (nonempty activity) || bool_decide (activity ∈ already)
         || bool_decide (activity ∈ seen_local)
      then pick_activities already rest seen_local results
      else
        let seen_local := {[activity]} ∪ seen_local in
        let results := results ++ [activity_line activity (FEELING_TAGS meta)] in
        if bool_decide (3 ≤ length results) then (seen_local, results)
        else pick_activities already rest seen_local results
  end.

(** [user_id or "__global__"]. *)
Definition cache_key (user_id : string) : string :=
  if nonempty user_id then user_id else "__global__".

(** The feeling tags of every rule key contained in the emotion text. *)
Definition matching_tags (E : env) (user_emotion : string) : list string :=
  flat_map (λ kv : string * list string,
              if contains kv.1 user_emotion then kv.2 else [])
           (emotion_to_feeling_tags (RULES E)).

(** The energy ceiling: the last rule key contained in the mobility text
    wins, 5 when none is or when the rule has no [max_energy]. *)
Definition energy_limit_of (E : env) (mobility_status : string) : Z :=
  fold_left (λ (limit : Z) (kv : string * option Z),
               if contains kv.1 mobility_status then default 5%Z kv.2 else limit)
            (mobility_to_energy_range (RULES E)) 5%Z.

(** The query the recommender sends: the text built from the feeling tags
    (the default tag when no rule matches), at most 8 activities, under the
    energy ceiling. *)
Definition activity_request (E : env) (user_emotion mobility_status : string)
    : index_request :=
  let target_tags := matching_tags E user_emotion in
  let target_tags := match target_tags with [] => ["평온/이완"] | _ => target_tags end in
  let energy_limit := energy_limit_of E mobility_status in
  let query := "효과: " +:+ join ", " target_tags +:+ " 인 활동" in
  {| rq_text := query; rq_top_k := 8; rq_filter := ActivityUpTo energy_limit |}.

(** [recommend_activities_tool(user_emotion, mobility_status, user_id)]. *)
Definition recommend_activities_tool (E : env)
    (user_emotion mobility_status user_id : string) : M state string :=
  if negb (ready E) then mret DB_ERROR
  else
    res ← query_index E (activity_request E user_emotion mobility_status);
    let uid := cache_key user_id in
    already ← recommended_of uid;
    let '(seen_local, results) := pick_activities already res ∅ [] in
    match results with
    | [] => mret NOTHING_NEW
    | _ :: _ =>
        _ ← update_recommended uid seen_local;
        mret (join newline results)
    end.

(** The [for m in res.get("matches", [])] loop of the question search. *)
Fixpoint pick_questions (already : gset string) (matches : list vmatch)
    (seen_local : gset string) (questions : list string) : gset string * list string :=
  match matches with
  | [] => (seen_local, questions)
  | m :: rest =>
      let meta := default no_metadata (m_metadata m) in
      match question_text meta with
      | None => pick_questions already rest seen_local questions
      | Some q_text =>
          if negb (nonempty q_text) || bool_decide (q_text ∈ already)
             || bool_decide (q_text ∈ seen_local)
          then pick_questions already rest seen_local questions
          else
            let seen_local := {[q_text]} ∪ seen_local in
            let questions := questions ++ [question_line q_text (intent meta)] in
            if bool_decide (3 ≤ length questions) then (seen_local, questions)
            else pick_questions already rest seen_local questions
      end
  end.

(** One line of the fallback comprehension; [m['metadata']] raises
    [KeyError] on a match without metadata, and a missing question text is
    printed as [None]. *)
Definition fallback_line (m : vmatch) : result string :=
  match m_metadata m with
  | None => Raise "'metadata'"
  | Some meta =>
      Ok (question_line (default "None" (question_text meta)) (intent meta))
  end.

Fixpoint fallback_lines (ms : list vmatch) : result (list string) :=
  match ms with
  | [] => Ok []
  | m :: rest =>
      match fallback_line m with
      | Raise e => Raise e
      | Ok l =>
          match fallback_lines rest with
          | Raise e => Raise e
          | Ok ls => Ok (l :: ls)
          end
      end
  end.

(** [max(1, min(depth, 3))]. *)
Definition clamp_depth (depth : Z) : Z := Z.max 1 (Z.min depth 3).

(** [recent_messages[-5:]]. *)
Definition last5 (l : list string) : list string := drop (length l - 5) l.

(** The query the question search sends: the context, followed by the top
    keywords of the recent messages when there are any, for [3 + depth]
    questions at the clamped depth. *)
Definition question_request (E : env) (context : string) (depth : Z)
    (recent_messages : option (list string)) : index_request :=
  let depth := clamp_depth depth in
  let keywords :=
    match recent_messages with
    | None | Some [] => []
    | Some msgs => top_keywords E (last5 msgs)
    end in
  let query_text :=
    match keywords with
    | [] => context
    | _ :: _ => context +:+ " / 키워드: " +:+ join ", " keywords
    end in
  {| rq_text := query_text; rq_top_k := 3 + depth; rq_filter := Question |}.

(** [search_empathy_questions_tool(context, depth, user_id, recent_messages)]. *)
Definition search_empathy_questions_tool (E : env) (context : string) (depth : Z)
    (user_id : string) (recent_messages : option (list string)) : M state string :=
  if negb (ready E) then mret DB_ERROR
  else
    res ← query_index E (question_request E context depth recent_messages);
    let uid := cache_key user_id in
    already ← asked_of uid;
    let '(seen_local, questions) := pick_questions already res ∅ [] in
    questions ←
      match questions, res with
      | [], _ :: _ => of_result (fallback_lines (take 3 res))
      | _, _ => mret questions
      end;
    _ ← update_asked uid seen_local;
    mret (match questions with [] => NO_QUESTION | _ :: _ => join newline questions end).

(** *** Reading the caches *)

(** The activities already recommended to a user. *)
Definition recommended_to (st : state) (user_id : string) : gset string :=
  default ∅ (recommended_activities_by_user st !! cache_key user_id).

(** The questions already asked to a user. *)
Definition asked_by (st : state) (user_id : string) : gset string :=
  default ∅ (asked_questions_by_user st !! cache_key user_id).

(** The labels and the lines the recommender's loop selects when it is
    called in state [st]; nothing when the index is not connected or the
    query raises. *)
Definition selection_in (E : env) (user_emotion mobility_status user_id : string)
    (st : state) : gset string * list string :=
  if ready E then
    match index_query E (length (queries st))
                      (activity_request E user_emotion mobility_status) with
    | Ok res => pick_activities (recommended_to st user_id) res ∅ []
    | Raise _ => (∅, [])
    end
  else (∅, []).

(** The line the fallback prints for a match that carries metadata. *)
Definition repeated_line (m : vmatch) : string :=
  let meta := default no_metadata (m_metadata m) in
  question_line (default "None" (question_text meta)) (intent meta).

(** The state after a request has been logged. *)
Definition logged (rq : index_request) (st : state) : state :=
  {| recommended_activities_by_user := recommended_activities_by_user st;
     asked_questions_by_user := asked_questions_by_user st;
     queries := queries st ++ [rq] |}.

(** The labels and the lines the question search's loop selects when it is
    called in state [st]; nothing when the index is not connected or the
    query raises. *)
Definition question_selection_in (E : env) (context : string) (depth : Z)
    (user_id : string) (recent_messages : option (list string)) (st : state)
    : gset string * list string :=
  if ready E then
    match index_query E (length (queries st))
                      (question_request E context depth recent_messages) with
    | Ok res => pick_questions (asked_by st user_id) res ∅ []
    | Raise _ => (∅, [])
    end
  else (∅, []).

(** The outcome [r] of a recommender call prints the selection [sel]: the
    lines joined by line feeds when there are any, otherwise one of the fixed
    texts or the exception of the query; and the lines are those of at most
    three picks with pairwise distinct labels, which are the selected
    labels. *)
Definition prints (r : result string) (sel : gset string * list string) : Prop :=
  match sel.2 with
  | [] => r = Ok DB_ERROR ∨ r = Ok NOTHING_NEW ∨ ∃ e, r = Raise e
  | _ :: _ => r = Ok (join newline sel.2)
  end ∧
  ∃ picks : list (string * pyval),
    NoDup picks.*1 ∧ length picks ≤ 3 ∧
    sel.1 = list_to_set picks.*1 ∧
    sel.2 = map (λ p, activity_line p.1 p.2) picks.

End RecommendBa.

(** ** Information tools ([chatbot/chatbot_modules/search_info.py]) *)

Module SearchInfo.

Record document : Type := {
  page_content : string;
  doc_metadata : gmap string pyval;
}.

(** A value of the [filter] dictionary: a plain string, or [{"$in": [...]}]. *)
Inductive filter_value : Type :=
| FEq (v : string)
| FIn (vs : list string).

(** One [similarity_search] on a vector store. *)
Record search_request : Type := {
  namespace : string;
  query : string;
  k : nat;
  filter : gmap string filter_value;
}.

(** The searches issued so far. *)
Record state : Type := { searches : list search_request }.

(** What a tool hands back: the connection-error text or the documents. *)
Inductive output : Type :=
| Text (s : string)
| Documents (ds : list document).

(** [ready] tells whether [_init_clients] leaves the index, the embeddings
    and the vector stores set; [similarity_search n rq] answers request [rq]
    when [n] searches came before it; the two region files are given as
    loaded; [get_close_matches] is [difflib]'s, at cutoff 0.6. *)
Record env : Type := {
  ready : bool;
  similarity_search : nat → search_request → result (list document);
  region_list_json : gmap string (list string);
  facilities_region_list_json : gmap string (list string);
  get_close_matches : string → list string → nat → list string;
}.

Definition DB_ERROR : string := "DB 연결 오류".

(** The first pass of [find_matching_regions]: [inl] is the early [return]
    taken once [n] regions are collected, [inr] the list at the end of the
    loop. *)
Fixpoint containment_pass (user_input : string) (region_list : list string) (n : nat)
    (matched : list string) : list string + list string :=
  match region_list with
  | [] => inr matched
  | region :: rest =>
      if contains user_input region || contains region user_input then
        let matched := matched ++ [region] in
        if bool_decide (n ≤ length matched) then inl matched
        else containment_pass user_input rest n matched
      else containment_pass user_input rest n matched
  end.

(** [find_matching_regions(user_input, region_list, n)]. *)
Definition find_matching_regions (E : env) (user_input : string)
    (region_list : list string) (n : nat) : option (list string) :=
  match containment_pass user_input region_list n [] with
  | inl matched => Some matched
  | inr matched =>
      let matched :=
        match matched with
        | [] => get_close_matches E user_input region_list n
        | _ :: _ => matched
        end in
      match matched with
      | [] => None
      | _ :: _ => Some matched
      end
  end.

(** The [if matched:] block that constrains the region. *)
Definition constrain_region (matched : option (list string))
    (filter_dict : gmap string filter_value) : gmap string filter_value :=
  match matched with
  | None | Some [] => filter_dict
  | Some [r] => <["region" := FEq r]> filter_dict
  | Some rs => <["region" := FIn rs]> filter_dict
  end.

Definition run_search (E : env) (rq : search_request) : M state (list document) :=
  st ← get_state;
  _ ← put_state {| searches := searches st ++ [rq] |};
  of_result (similarity_search E (length (searches st)) rq).

(** [region_list_json[key]]. *)
Definition region_list_at (E : env) (key : string) : M state (list string) :=
  match region_list_json E !! key with
  | Some l => mret l
  | None => raise ("'" +:+ key +:+ "'")
  end.

(** [search_public_funeral_ordinance(query, region)]. *)
Definition search_public_funeral_ordinance (E : env) (query : string)
    (region : option string) : M state output :=
  if negb (ready E) then mret (Text DB_ERROR)
  else
    let filter_dict : gmap string filter_value :=
      {[ "type" := FEq "Public_Funeral_Ordinance" ]} in
    let k := 3 in
    filter_dict ←
      match given region with
      | Some region =>
          region_list ← region_list_at E "public_funeral_ordinance";
          let matched := find_matching_regions E region region_list k in
          mret (constrain_region matched filter_dict)
      | None => mret filter_dict
      end;
    results ← run_search E {| namespace := "ordinance"; query := query; k := k;
                              filter := filter_dict |};
    mret (Documents results).

(** [search_cremation_subsidy_ordinance(query, region)]. *)
Definition search_cremation_subsidy_ordinance (E : env) (query : string)
    (region : option string) : M state output :=
  if negb (ready E) then mret (Text DB_ERROR)
  else
    let filter_dict : gmap string filter_value :=
      {[ "type" := FEq "Cremation_Subsidy_Ordinance" ]} in
    let k := 3 in
    filter_dict ←
      match given region with
      | Some region =>
          detail ← region_list_at E "cremation_detail";
          etcetera ← region_list_at E "cremation_etcetera";
          let matched := find_matching_regions E region (detail ++ etcetera) k in
          mret (constrain_region matched filter_dict)
      | None => mret filter_dict
      end;
    results ← run_search E {| namespace := "ordinance"; query := query; k := k;
                              filter := filter_dict |};
    mret (Documents results).

Definition str_le (a b : string) : Prop := String.leb a b.

#[export] Instance str_le_dec : RelDecision str_le.
Proof. intros a b. unfold str_le. apply _. Defined.

(** [sorted(list(set(all_regions)))] over the values of the facilities file. *)
Definition all_regions (E : env) : list string :=
  let all := concat (map_to_list (facilities_region_list_json E)).*2 in
  merge_sort str_le (elements (list_to_set all : gset string)).

(** The region filter of one sub-search. *)
Definition facility_filter (E : env) (all_regions : list string)
    (rgn : option string) : gmap string filter_value :=
  match given rgn with
  | Some rgn => constrain_region (find_matching_regions E rgn all_regions 100) ∅
  | None => ∅
  end.

(** The sub-search made for one region. *)
Definition facility_request (E : env) (query : string) (k : nat)
    (all_regions : list string) (rgn : option string) : search_request :=
  let filter_dict := facility_filter E all_regions rgn in
  {| namespace := "funeral_facilities"; query := query; k := k; filter := filter_dict |}.

(** The [for rgn in regions] loop; a sub-search that raises is skipped. *)
Fixpoint search_each_region (E : env) (query : string) (k : nat)
    (all_regions : list string) (regions : list (option string))
    (results_list : list document) : M state (list document) :=
  match regions with
  | [] => mret results_list
  | rgn :: rest =>
      results_list ←
        try_except
          (results ← run_search E (facility_request E query k all_regions rgn);
           mret (results_list ++ results))
          (λ _, mret results_list);
      search_each_region E query k all_regions rest results_list
  end.

(** The content-based merge at the end of [search_funeral_facilities]. *)
Fixpoint unique_by_content (results_list unique_results : list document)
    (seen_content : gset string) : list document :=
  match results_list with
  | [] => unique_results
  | doc :: rest =>
      if bool_decide (page_content doc ∈ seen_content)
      then unique_by_content rest unique_results seen_content
      else unique_by_content rest (unique_results ++ [doc])
                             ({[page_content doc]} ∪ seen_content)
  end.

(** [search_funeral_facilities(query, region, regions)]. *)
Definition search_funeral_facilities (E : env) (query : string)
    (region : option string) (regions : option (list (option string))) : M state output :=
  if negb (ready E) then mret (Text DB_ERROR)
  else
    let all_regions := all_regions E in
    let regions := match regions with None => [region] | Some rs => rs end in
    match length regions with
    | 0 => raise "integer division or modulo by zero"
    | S _ =>
        let k := 10 `div` length regions in
        results_list ← search_each_region E query k all_regions regions [];
        mret (Documents (unique_by_content results_list [] ∅))
    end.

(** [search_digital_legacy(query)]. *)
Definition search_digital_legacy (E : env) (query : string) : M state output :=
  if negb (ready E) then mret (Text DB_ERROR)
  else
    results ← run_search E {| namespace := "digital_legacy"; query := query; k := 5;
                              filter := ∅ |};
    mret (Documents results).

(** [search_legacy(query)]. *)
Definition search_legacy (E : env) (query : string) : M state output :=
  if negb (ready E) then mret (Text DB_ERROR)
  else
    results ← run_search E {| namespace := "legacy"; query := query; k := 5;
                              filter := ∅ |};
    mret (Documents results).

(** *** Vocabulary for the statements *)

(** The canonical regions related to the input by containment, in either
    direction. *)
Definition contained_regions (user_input : string) (region_list : list string)
    : list string :=
  List.filter (λ region, contains user_input region || contains region user_input)
              region_list.

(** The documents answered to a run of requests of which [n] searches came
    before the first; a request that raises contributes none. *)
Fixpoint answers (E : env) (n : nat) (requests : list search_request) : list document :=
  match requests with
  | [] => []
  | rq :: rest =>
      match similarity_search E n rq with
      | Ok ds => ds
      | Raise _ => []
      end ++ answers E (S n) rest
  end.

(** Deduplication by content that preserves the first-seen order, as a
    filter: a document is kept exactly when none of the documents [earlier]
    in the list has its content. *)
Fixpoint first_occurrences_after (earlier ds : list document) : list document :=
  match ds with
  | [] => []
  | d :: rest =>
      (if bool_decide (page_content d ∈ page_content <$> earlier) then [] else [d])
      ++ first_occurrences_after (earlier ++ [d]) rest
  end.

Definition first_occurrences (ds : list document) : list document :=
  first_occurrences_after [] ds.

End SearchInfo.

(** ** The orchestrator ([scripts/conversation_engine.py]) *)

Module ConversationEngine.

Import SessionManager.

(** One entry of [AIMessage.tool_calls]. *)
Record tool_call : Type := {
  tc_name : string;
  tc_args : gmap string pyval;
  tc_id : string;
}.

Inductive message : Type :=
| SystemMessage (content : string)
| HumanMessage (content : string)
| AIMessage (content : string) (tool_calls : list tool_call)
| ToolMessage (content : string) (tool_call_id : string).

(** The reply of one model invocation. *)
Record ai_message : Type := {
  content : string;
  tool_calls : list tool_call;
}.

Definition as_message (ai : ai_message) : message :=
  AIMessage (content ai) (tool_calls ai).

(** Which tool list the model is bound to. *)
Inductive toolset : Type := CompanionTools | InformationTools.

(** The module state of both tool files. *)
Record tools_state : Type := {
  companion : RecommendBa.state;
  information : SearchInfo.state;
}.

(** A bound tool: its name, and [invoke], which runs it on the arguments
    and yields the [str()] of what it returns. *)
Record tool : Type := {
  name : string;
  invoke : gmap string pyval → M tools_state string;
}.

(** Everything one process touches: the session files, the requests sent
    to the language model so far, the tool modules. *)
Record world : Type := {
  sessions : store;
  llm_calls : list (toolset * list message);
  tool_modules : tools_state;
}.

(** What the engine is run against.  [llm n ts msgs] is the reply to the
    model invocation that [n] others preceded, or the exception it raises;
    [TOOLS_INFO] is the list of information tools; [tool_node] is LangGraph's prebuilt [ToolNode] over a
    tool list; [recursion_limit] bounds the number of graph steps, past which
    the graph raises; [format_prompt] fills the companion prompt template
    with name, age, mobility, emotion and user id. *)
Record env : Type := {
  wall_clock : clock;
  llm : nat → toolset → list message → result ai_message;
  TOOLS_INFO : list tool;
  tool_node : toolset → list tool_call → M tools_state (list message);
  recursion_limit : nat;
  format_prompt : string → string → string → string → string → string;
}.

Definition WELCOME_COOLDOWN_MINUTES : Z := 30.
Definition usec_per_minute : Z := 60000000.

Definition SYSTEM_ERROR : string := "시스템 오류가 발생했습니다.".

Definition INFO_FLOW_PROMPT : string :=
  "당신은 정확한 행정 및 장례 정보를 제공하는 전문가입니다. " +:+
  "사실과 절차 위주로, 필요한 경우 제공된 도구를 활용해 검색하세요.".

(** [INFO_MODE_PROMPT] of [scripts/info_agent.py]. *)
Definition INFO_MODE_PROMPT : string :=
  newline +:+
  "당신은 정확한 행정 및 장례 정보를 제공하는 전문가입니다." +:+ newline +:+
  "감정적인 위로보다는 정확한 사실(Fact)과 절차를 안내하는 데 집중하세요." +:+ newline +:+
  "유산상속, 장례 정보(묘지, 봉안당, 화장시설, 자연장지, 장례식장), 정부 지원(화장 장려금, 공영 장례), 디지털 유산 등 포괄적인 정보를 제공합니다." +:+ newline.

Definition with_sessions (v : store) (w : world) : world :=
  {| sessions := v; llm_calls := llm_calls w; tool_modules := tool_modules w |}.

Definition with_tool_modules (v : tools_state) (w : world) : world :=
  {| sessions := sessions w; llm_calls := llm_calls w; tool_modules := v |}.

(** A session-manager call made by the engine. *)
Definition on_sessions {A} (c : M store A) : M world A :=
  zoom sessions with_sessions c.

(** A tool run made by the engine. *)
Definition on_tools {A} (c : M tools_state A) : M world A :=
  zoom tool_modules with_tool_modules c.

(** [model.invoke(messages)] on the model bound to the tool list [ts]. *)
Definition llm_invoke (E : env) (ts : toolset) (messages : list message) : M world ai_message :=
  w ← get_state;
  _ ← put_state {| sessions := sessions w;
                   llm_calls := llm_calls w ++ [(ts, messages)];
                   tool_modules := tool_modules w |};
  of_result (llm E (length (llm_calls w)) ts messages).

(** The LangGraph state. *)
Record agent_state : Type := {
  messages : list message;
  st_user_profile : profile;
  current_mode : string;
  st_user_id : string;
  recent_texts : list string;
}.

(** The [add_messages] reducer applied to a node's update. *)
Definition add_messages (st : agent_state) (update : list message) : agent_state :=
  {| messages := messages st ++ update; st_user_profile := st_user_profile st;
     current_mode := current_mode st; st_user_id := st_user_id st;
     recent_texts := recent_texts st |}.

Inductive node : Type := empathy_agent | info_agent | tools | info_tools.

Definition END : string := "__end__".

(** [_route_mode(state)]. *)
Definition _route_mode (st : agent_state) : string :=
  if String.eqb (current_mode st) "info" then "info_agent" else "empathy_agent".

(** [_should_continue(state)]. *)
Definition _should_continue (st : agent_state) : string :=
  match last (messages st) with
  | Some (AIMessage _ (_ :: _)) => "tools"
  | _ => END
  end.

(** [empathy_node(state)] of [scripts/empathy_agent.py]. *)
Definition empathy_node (E : env) (st : agent_state) : M world (list message) :=
  let profile := st_user_profile st in
  let display_name := py_or (dict_get profile "name") (VStr "친구") in
  let mobility :=
    py_or (py_or (dict_get profile "mobility") (dict_get profile "activity_range"))
          (VStr "거동 정보 없음") in
  let emotion := py_or (dict_get profile "emotion") (VStr "기분 정보 없음") in
  let system_msg :=
    format_prompt E (py_str display_name)
                  (py_str (default (VStr "미상") (profile !! "age")))
                  (py_str mobility) (py_str emotion) (st_user_id st) in
  response ← llm_invoke E CompanionTools (SystemMessage system_msg :: messages st);
  mret [as_message response].

(** [info_node(state)] of [scripts/info_agent.py]. *)
Definition info_node (E : env) (st : agent_state) : M world (list message) :=
  response ← llm_invoke E InformationTools (SystemMessage INFO_MODE_PROMPT :: messages st);
  mret [as_message response].

(** The tool calls a [ToolNode] reads off the last message. *)
Definition pending_calls (st : agent_state) : list tool_call :=
  match last (messages st) with
  | Some (AIMessage _ calls) => calls
  | _ => []
  end.

(** Running one node of the graph built by [_build_graph]. *)
Definition run_node (E : env) (nd : node) (st : agent_state) : M world (list message) :=
  match nd with
  | empathy_agent => empathy_node E st
  | info_agent => info_node E st
  | tools => on_tools (tool_node E CompanionTools (pending_calls st))
  | info_tools => on_tools (tool_node E InformationTools (pending_calls st))
  end.

Definition node_name (nd : node) : string :=
  match nd with
  | empathy_agent => "empathy_agent"
  | info_agent => "info_agent"
  | tools => "tools"
  | info_tools => "info_tools"
  end.

(** The edges of [_build_graph]: [Some None] leads to [END], [None] is a
    branch value the node's mapping does not list. *)
Definition next_node (nd : node) (st : agent_state) : option (option node) :=
  match nd with
  | empathy_agent =>
      let branch := _should_continue st in
      if String.eqb branch "tools" then Some (Some tools)
      else if String.eqb branch END then Some None
      else None
  | info_agent =>
      let branch := _should_continue st in
      if String.eqb branch "info_tools" then Some (Some info_tools)
      else if String.eqb branch END then Some None
      else None
  | tools => Some (Some empathy_agent)
  | info_tools => Some (Some info_agent)
  end.

(** The conditional entry point. *)
Definition entry_node (st : agent_state) : option node :=
  let branch := _route_mode st in
  if String.eqb branch "empathy_agent" then Some empathy_agent
  else if String.eqb branch "info_agent" then Some info_agent
  else None.

(** One streamed event: the node that ran and its [messages] update. *)
Definition event : Type := string * list message.

(** [self.app.stream(inputs)] from node [nd] on, with [steps] steps left. *)
Fixpoint stream_from (E : env) (steps : nat) (nd : node) (st : agent_state)
    : M world (list event) :=
  match steps with
  | 0 => raise "GraphRecursionError"
  | S steps =>
      update ← run_node E nd st;
      let st := add_messages st update in
      match next_node nd st with
      | None => raise "KeyError"
      | Some None => mret [(node_name nd, update)]
      | Some (Some nd') =>
          events ← stream_from E steps nd' st;
          mret ((node_name nd, update) :: events)
      end
  end.

Definition app_stream (E : env) (inputs : agent_state) : M world (list event) :=
  match entry_node inputs with
  | Some nd => stream_from E (recursion_limit E) nd inputs
  | None => raise "KeyError"
  end.

(** The body of the [for event in self.app.stream(...)] loop. *)
Fixpoint collect_response (events : list event) (response_text : string) : result string :=
  match events with
  | [] => Ok response_text
  | (_, update) :: rest =>
      match last update with
      | None => Raise "list index out of range"
      | Some (AIMessage text []) => collect_response rest text
      | Some _ => collect_response rest response_text
      end
  end.

(** [_should_show_welcome(session, mode)].  The [try] covers the parsing
    only: the subtraction after it raises [TypeError] on a time with a UTC
    offset. *)
Definition _should_show_welcome (E : env) (s : session) (mode : string) : M store bool :=
  if negb (String.eqb mode "chat") then mret false
  else
    match given (last_visit s), conversation_history s with
    | None, _ | _, [] => mret false
    | Some last_visit, _ :: _ =>
        match fromisoformat (wall_clock E) last_visit with
        | Some last_dt =>
            t ← datetime_now (wall_clock E);
            mret (bool_decide (WELCOME_COOLDOWN_MINUTES * usec_per_minute < t - last_dt)%Z)
        | None =>
            if has_utc_offset (wall_clock E) last_visit then
              _ ← datetime_now (wall_clock E);
              raise NAIVE_MINUS_AWARE
            else mret false
        end
    end.

(** [{t.name: t for t in TOOLS_INFO}]: a later tool of the same name
    replaces an earlier one. *)
Definition tools_by_name (E : env) : gmap string tool :=
  list_to_map (reverse (map (λ t, (name t, t)) (TOOLS_INFO E))).

Definition not_found_text (name : string) : string :=
  "'" +:+ name +:+ "' 도구를 찾을 수 없습니다.".

Definition failure_text (e : string) : string := "도구 실행 실패: " +:+ e.

(** The body of the [for call in ai_msg.tool_calls] loop. *)
Definition run_tool_call (E : env) (call : tool_call) : M world message :=
  let name := tc_name call in
  let args := tc_args call in
  match tools_by_name E !! name with
  | None => mret (ToolMessage (not_found_text name) (tc_id call))
  | Some tool =>
      result ← try_except (on_tools (invoke tool args)) (λ e, mret (failure_text e));
      mret (ToolMessage result (tc_id call))
  end.

(** The whole loop: the tool messages, in call order. *)
Fixpoint run_tool_calls (E : env) (calls : list tool_call) : M world (list message) :=
  match calls with
  | [] => mret []
  | call :: rest =>
      m ← run_tool_call E call;
      ms ← run_tool_calls E rest;
      mret (m :: ms)
  end.

(** [_run_info_flow(profile, text, user_id, history_messages)]. *)
Definition _run_info_flow (E : env) (profile : profile) (text user_id : string)
    (history_messages : list message) : M world string :=
  let messages :=
    [SystemMessage INFO_FLOW_PROMPT] ++ history_messages ++ [HumanMessage text] in
  ai_msg ← llm_invoke E InformationTools messages;
  match tool_calls ai_msg with
  | [] => mret (content ai_msg)
  | _ :: _ =>
      tool_messages ← run_tool_calls E (tool_calls ai_msg);
      let messages := messages ++ [as_message ai_msg] ++ tool_messages in
      final_ai ← llm_invoke E InformationTools messages;
      mret (content final_ai)
  end.

(** [history[-8:]]. *)
Definition last8 (h : list hist_item) : list hist_item := drop (length h - 8) h.

(** The conversion loop over the recent history: the messages handed to the
    model and the plain texts handed to the tools. *)
Fixpoint recent_context (items : list hist_item) : list message * list string :=
  match items with
  | [] => ([], [])
  | HJunk :: rest => recent_context rest
  | HMsg _ role content :: rest =>
      let '(history_messages, recent_texts) := recent_context rest in
      let history_messages :=
        if String.eqb role "user" then HumanMessage content :: history_messages
        else if String.eqb role "assistant" then AIMessage content [] :: history_messages
        else history_messages in
      (history_messages, content :: recent_texts)
  end.

(** [process_user_message(user_id, text, mode)]. *)
Definition process_user_message (E : env) (user_id text mode : string) : M world string :=
  session ← on_sessions (load_session user_id);
  let profile := user_profile session in
  show ← on_sessions (_should_show_welcome E session mode);
  welcome_text ←
    (if show : bool
     then w ← on_sessions (get_welcome_message (wall_clock E) user_id); mret (Some w)
     else mret None);
  let '(history_messages, recent_texts) :=
    recent_context (last8 (conversation_history session)) in
  let inputs :=
    {| messages := history_messages ++ [HumanMessage text];
       st_user_profile := profile; current_mode := mode;
       st_user_id := user_id; recent_texts := recent_texts |} in
  if String.eqb mode "info" then
    response_text ← _run_info_flow E profile text user_id history_messages;
    _ ← on_sessions (add_message (wall_clock E) user_id "user" text);
    _ ← on_sessions (add_message (wall_clock E) user_id "assistant" response_text);
    _ ← on_sessions (update_last_visit (wall_clock E) user_id);
    mret response_text
  else
    outcome ←
      try_except
        (events ← app_stream E inputs;
         response_text ← of_result (collect_response events "");
         mret (Some response_text))
        (λ _, mret None);
    match outcome with
    | None => mret SYSTEM_ERROR
    | Some response_text =>
        _ ← on_sessions (add_message (wall_clock E) user_id "user" text);
        let response_text :=
          match given welcome_text with
          | Some welcome_text =>
              if nonempty response_text
              then welcome_text +:+ newline +:+ newline +:+ response_text
              else welcome_text
          | None => response_text
          end in
        _ ← on_sessions (add_message (wall_clock E) user_id "assistant" response_text);
        _ ← on_sessions (update_last_visit (wall_clock E) user_id);
        mret response_text
    end.

(** *** Vocabulary for the statements *)

(** The inputs [process_user_message] hands to the graph. *)
Definition graph_inputs (uid text mode : string) (w : world) : agent_state :=
  let session := load_session_from (files (sessions w)) uid in
  let context := recent_context (last8 (conversation_history session)) in
  {| messages := context.1 ++ [HumanMessage text];
     st_user_profile := user_profile session; current_mode := mode;
     st_user_id := uid; recent_texts := context.2 |}.

(** A computation is blind to the sessions when swapping the session store
    changes nothing but the store it hands back. *)
Definition session_blind {A} (c : M world A) : Prop :=
  ∀ w s, c (with_sessions s w) = ((c w).1, with_sessions s (c w).2).

End ConversationEngine.

(** ** Concrete scenarios, used to instantiate the statements *)

Module Scenario.

Definition doc (text : string) : SearchInfo.document :=
  {| SearchInfo.page_content := text; SearchInfo.doc_metadata := ∅ |}.

(** A connected vector store that answers an ordinance search with one
    document and every facility sub-search with the same two documents; the
    canonical ordinance list has two regions, the similarity pass finds
    nothing. *)
Definition info_env : SearchInfo.env :=
  {| SearchInfo.ready := true;
     SearchInfo.similarity_search := λ _ rq,
       if String.eqb (SearchInfo.namespace rq) "ordinance"
       then Ok [doc "공영장례 지원 조례 제3조"]
       else Ok [doc "하늘공원 봉안당"; doc "시립 화장장"];
     SearchInfo.region_list_json :=
       {[ "public_funeral_ordinance" := ["서울특별시 강남구"; "부산광역시 해운대구"] ]};
     SearchInfo.facilities_region_list_json :=
       {[ "cemetery" := ["경기도 의왕시"; "경기도 안양시"; "경기도 군포시"] ]};
     SearchInfo.get_close_matches := λ _ _ _, [] |}.


Definition no_searches : SearchInfo.state := {| SearchInfo.searches := [] |}.

(** A vector index that always answers with the same single question. *)
Definition one_question : RecommendBa.vmatch :=
  {| RecommendBa.m_metadata :=
       Some {| RecommendBa.activity_kr := None; RecommendBa.activity := None;
               RecommendBa.FEELING_TAGS := VNone;
               RecommendBa.question_text := Some "요즘 가장 마음이 쓰이는 일은 무엇인가요?";
               RecommendBa.intent := VStr "탐색" |} |}.

Definition question_env : RecommendBa.env :=
  {| RecommendBa.RULES :=
       {| RecommendBa.emotion_to_feeling_tags := [];
          RecommendBa.mobility_to_energy_range := [] |};
     RecommendBa.ready := true;
     RecommendBa.index_query := λ _ _, Ok [one_question];
     RecommendBa.top_keywords := λ _, [] |}.


(** The caches of a process in which user [u1] was already asked that
    question. *)
Definition already_asked : RecommendBa.state :=
  {| RecommendBa.recommended_activities_by_user := ∅;
     RecommendBa.asked_questions_by_user :=
       {[ "u1" := {[ "요즘 가장 마음이 쓰이는 일은 무엇인가요?" ]} ]};
     RecommendBa.queries := [] |}.

Definition fresh_caches : RecommendBa.state :=
  {| RecommendBa.recommended_activities_by_user := ∅;
     RecommendBa.asked_questions_by_user := ∅;
     RecommendBa.queries := [] |}.

Definition fixed_clock : SessionManager.clock :=
  {| SessionManager.now := λ k, Z.of_nat k;
     SessionManager.isoformat := λ _, "2024-01-01T00:00:00";
     SessionManager.fromisoformat := λ s,
       if String.eqb s "2024-01-01T00:00:00" then Some 0%Z else None;
     SessionManager.has_utc_offset := λ s, String.eqb s "2024-01-01T00:00:00+09:00" |}.

(** A tool that always raises. *)
Definition broken_tool : ConversationEngine.tool :=
  {| ConversationEngine.name := "search_legacy";
     ConversationEngine.invoke := λ _, raise "index unavailable" |}.

(** An engine whose language model cannot be reached. *)
Definition llm_down : ConversationEngine.env :=
  {| ConversationEngine.wall_clock := fixed_clock;
     ConversationEngine.llm := λ _ _ _, Raise "Connection error.";
     ConversationEngine.TOOLS_INFO := [broken_tool];
     ConversationEngine.tool_node := λ _ _, mret [];
     ConversationEngine.recursion_limit := 25;
     ConversationEngine.format_prompt := λ _ _ _ _ _, "" |}.

Definition legacy_call : ConversationEngine.tool_call :=
  {| ConversationEngine.tc_name := "search_legacy";
     ConversationEngine.tc_args := {[ "query" := VStr "상속 순위" ]};
     ConversationEngine.tc_id := "call_1" |}.

(** An engine whose model asks for a tool in every reply, the first reply
    without text, the later ones with an answer. *)
Definition eager_llm : ConversationEngine.env :=
  {| ConversationEngine.wall_clock := fixed_clock;
     ConversationEngine.llm := λ n _ _,
       Ok {| ConversationEngine.content :=
               match n with 0 => "" | S _ => "상속 순위는 다음과 같습니다." end;
             ConversationEngine.tool_calls := [legacy_call] |};
     ConversationEngine.TOOLS_INFO := [broken_tool];
     ConversationEngine.tool_node := λ _ _, mret [];
     ConversationEngine.recursion_limit := 25;
     ConversationEngine.format_prompt := λ _ _ _ _ _, "" |}.

(** An engine whose model answers at once, without asking for a tool. *)
Definition direct_llm : ConversationEngine.env :=
  {| ConversationEngine.wall_clock := fixed_clock;
     ConversationEngine.llm := λ _ _ _,
       Ok {| ConversationEngine.content := "말씀해 주셔서 고마워요.";
             ConversationEngine.tool_calls := [] |};
     ConversationEngine.TOOLS_INFO := [broken_tool];
     ConversationEngine.tool_node := λ _ _, mret [];
     ConversationEngine.recursion_limit := 25;
     ConversationEngine.format_prompt := λ _ _ _ _ _, "" |}.

(** A clock that reads twenty-five hours after the stored visit. *)
Definition next_day_clock : SessionManager.clock :=
  {| SessionManager.now := λ _, 90000000000%Z;
     SessionManager.isoformat := λ _, "2024-01-02T01:00:00";
     SessionManager.fromisoformat := λ s,
       if String.eqb s "2024-01-01T00:00:00" then Some 0%Z else None;
     SessionManager.has_utc_offset := λ s, String.eqb s "2024-01-01T00:00:00+09:00" |}.

Definition next_day : ConversationEngine.env :=
  {| ConversationEngine.wall_clock := next_day_clock;
     ConversationEngine.llm := λ _ _ _, Raise "Connection error.";
     ConversationEngine.TOOLS_INFO := [];
     ConversationEngine.tool_node := λ _ _, mret [];
     ConversationEngine.recursion_limit := 25;
     ConversationEngine.format_prompt := λ _ _ _ _ _, "" |}.

(** The stored session of a user who talked once, the day before. *)
Definition returning_user : SessionManager.store :=
  {| SessionManager.files :=
       SessionManager.flat
         {[ "u1" := SessionManager.Json (Some "u1") (Some "2024-01-01T00:00:00")
                      (Some {[ "name" := VStr "영희" ]})
                      (Some [SessionManager.HMsg "2024-01-01T00:00:00" "user" "안녕하세요"]) ]};
     SessionManager.clock_reads := 0 |}.

(** A clock that reads three days after the stored visit. *)
Definition three_days_clock : SessionManager.clock :=
  {| SessionManager.now := λ _, 259200000000%Z;
     SessionManager.isoformat := λ _, "2024-01-04T00:00:00";
     SessionManager.fromisoformat := λ s,
       if String.eqb s "2024-01-01T00:00:00" then Some 0%Z else None;
     SessionManager.has_utc_offset := λ s, String.eqb s "2024-01-01T00:00:00+09:00" |}.

(** An index holding two activities, and the rules of one emotion. *)
Definition activity (label : string) : RecommendBa.vmatch :=
  {| RecommendBa.m_metadata :=
       Some {| RecommendBa.activity_kr := Some label; RecommendBa.activity := None;
               RecommendBa.FEELING_TAGS := VStr "즐거움";
               RecommendBa.question_text := None; RecommendBa.intent := VNone |} |}.

Definition activity_env : RecommendBa.env :=
  {| RecommendBa.RULES :=
       {| RecommendBa.emotion_to_feeling_tags := [("지루", ["즐거움"])];
          RecommendBa.mobility_to_energy_range := [("거동 가능", Some 3%Z)] |};
     RecommendBa.ready := true;
     RecommendBa.index_query := λ _ _, Ok [activity "산책"; activity "화분 가꾸기"];
     RecommendBa.top_keywords := λ _, [] |}.

(** A process that has served nobody yet. *)
Definition fresh_world : ConversationEngine.world :=
  {| ConversationEngine.sessions :=
       {| SessionManager.files := ∅; SessionManager.clock_reads := 0 |};
     ConversationEngine.llm_calls := [];
     ConversationEngine.tool_modules :=
       {| ConversationEngine.companion := fresh_caches;
          ConversationEngine.information := no_searches |} |}.




(** A [sessions/] directory without sub-directories that holds the file of
    user [u1]: the id [./u1] names that file too, the id [team/u1] no file
    at all. *)
Definition one_user_directory : SessionManager.store :=
  {| SessionManager.files :=
       {| SessionManager.contents :=
            {[ "u1" := SessionManager.Json (Some "u1") None
                         (Some {[ "name" := VStr "영희" ]}) (Some []) ]};
          SessionManager.file_of := λ uid,
            if String.eqb uid "./u1" then Some "u1"
            else if String.eqb uid "team/u1" then None
            else Some uid |};
     SessionManager.clock_reads := 0 |}.

End Scenario.

(** ** Proof support *)

Lemma bind_unfold {W A B} (c : M W A) (k : A → M W B) (w : W) :
  (c ≫= k) w =
  match c w with
  | (Ok a, w') => k a w'
  | (Raise e, w') => (Raise e, w')
  end.
Proof. reflexivity. Qed.

Ltac run_monad :=
  unfold mbind, M_bind, mret, M_ret, raise, try_except, get_state, put_state,
         zoom, of_result in *; simpl in *.

(** * Properties of the session store *)

Module SessionManagerFacts.

Import SessionManager.

Lemma lookup_set_if_truthy k v (d : profile) i :
  set_if_truthy k v d !! i =
  if truthy v && bool_decide (k = i) then Some v else d !! i.
Proof.
  unfold set_if_truthy. destruct (truthy v); simpl; [|done].
  case_bool_decide as Hk; [subst; apply lookup_insert_eq | by apply lookup_insert_ne].
Qed.

(** C9. Normalising a raw profile [p] into the result of normalising it
    into [c] gives that result again. *)
Theorem normalize_profile_idempotent (p c : profile) :
  _normalize_profile p (_normalize_profile p c) = _normalize_profile p c.
Proof.
  apply map_eq; intros i. unfold _normalize_profile.
  repeat rewrite ?lookup_set_if_truthy, ?lookup_union.
  repeat (destruct (truthy _ && bool_decide _); [reflexivity|]).
  destruct (p !! i), (c !! i); reflexivity.
Qed.

Section Welcome.

Variable c : clock.

Lemma get_welcome_message_first uid st :
  given (last_visit (load_session_from (files st) uid)) = None →
  get_welcome_message c uid st =
  (Ok (greeting_first (welcome_title (load_session_from (files st) uid))), st).
Proof.
  intros H. unfold get_welcome_message, load_session. run_monad. by rewrite H.
Qed.

Lemma get_welcome_message_days uid st lv last :
  given (last_visit (load_session_from (files st) uid)) = Some lv →
  fromisoformat c lv = Some last →
  (get_welcome_message c uid st).1 =
  let title := welcome_title (load_session_from (files st) uid) in
  let days := ((now c (clock_reads st) - last) `div` 86400000000)%Z in
  Ok (if (days =? 0)%Z then greeting_continue title
      else if (days =? 1)%Z then greeting_rested title
      else greeting_long_time title).
Proof.
  intros H1 H2. unfold get_welcome_message, load_session, datetime_now. run_monad.
  rewrite H1. simpl. rewrite H2. unfold timedelta_days, usec_per_day.
  repeat case_match; reflexivity.
Qed.

End Welcome.

End SessionManagerFacts.

(** * Properties of the orchestrator *)

Module ConversationEngineFacts.

Import SessionManager ConversationEngine.

Section Engine.

Variable E : env.

(** In chat mode the welcome check answers True exactly when the session
    has a last-visit timestamp that denotes a naive time, a non-empty
    history, and more than 30 minutes have passed since that visit.  It
    raises exactly when the history is non-empty and the timestamp carries a
    UTC offset, and answers False otherwise.  The greeting itself is fixed by
    the whole days elapsed: none gives the "continue" text, one the "rested"
    text, two or more the "long time" text; a session without a last visit
    gets the neutral first-time greeting. *)
Theorem welcome_back_policy (s : session) (st : store) (uid : string) :
  let c := wall_clock E in
  let shown := (_should_show_welcome E s "chat" st).1 in
  (shown = Ok true ↔
     ∃ lv last, given (last_visit s) = Some lv ∧ fromisoformat c lv = Some last ∧
       conversation_history s ≠ [] ∧
       (30 * 60000000 < now c (clock_reads st) - last)%Z) ∧
  (∀ e, shown = Raise e ↔
     e = "can't subtract offset-naive and offset-aware datetimes" ∧
     ∃ lv, given (last_visit s) = Some lv ∧ conversation_history s ≠ [] ∧
       fromisoformat c lv = None ∧ has_utc_offset c lv = true) ∧
  (shown = Ok true ∨ shown = Ok false ∨ ∃ e, shown = Raise e) ∧
  (∀ mode, mode ≠ "chat" → (_should_show_welcome E s mode st).1 = Ok false) ∧
  let stored := load_session_from (files st) uid in
  let title := welcome_title stored in
  let text := (get_welcome_message c uid st).1 in
  (given (last_visit stored) = None →
     text = Ok ("안녕하세요, " +:+ title +:+ " 오늘은 좀 어떠신가요?")) ∧
  (∀ lv last, given (last_visit stored) = Some lv → fromisoformat c lv = Some last →
     let elapsed := (now c (clock_reads st) - last)%Z in
     ((0 ≤ elapsed < 86400000000)%Z →
        text = Ok (title +:+ " 다시 오셨군요. 이야기를 계속 나눠볼까요?")) ∧
     ((86400000000 ≤ elapsed < 2 * 86400000000)%Z →
        text = Ok (title +:+ " 밤사이 편안하셨나요?")) ∧
     ((2 * 86400000000 ≤ elapsed)%Z → text = Ok (title +:+ " 오랜만에 오셨네요!"))).
Proof.
  intros c shown. split; [|split; [|split; [|split]]]; cycle 3.
  { intros mode Hmode. unfold _should_show_welcome.
    apply String.eqb_neq in Hmode. by rewrite Hmode. }
  { intros stored title text. split.
    + intros H. unfold text. by rewrite (SessionManagerFacts.get_welcome_message_first c uid st H).
    + intros lv last H1 H2 elapsed.
      unfold text. rewrite (SessionManagerFacts.get_welcome_message_days c uid st lv last H1 H2).
      simpl. fold stored title elapsed.
      repeat split; intros Hr.
      * replace (elapsed `div` 86400000000)%Z with 0%Z; [done|].
        symmetry. apply Z.div_small. lia.
      * assert (H: (elapsed `div` 86400000000 = 1)%Z); [|by rewrite H].
        symmetry. apply (Z.div_unique _ _ 1 (elapsed - 86400000000))%Z; lia.
      * assert (H: (2 ≤ elapsed `div` 86400000000)%Z).
        { apply Z.div_le_lower_bound; lia. }
        destruct (Z.eqb_spec (elapsed `div` 86400000000) 0); [lia|].
        destruct (Z.eqb_spec (elapsed `div` 86400000000) 1); [lia|]. done. }
  - unfold shown, _should_show_welcome, datetime_now. run_monad.
    destruct (given (last_visit s)) as [lv|] eqn:Hlv; simpl.
    + destruct (conversation_history s) as [|h hs] eqn:Hh; simpl.
      * split; [discriminate|]. intros (? & ? & _ & _ & Hne & _). done.
      * fold c. destruct (fromisoformat c lv) as [last|] eqn:Hp; simpl.
        -- unfold WELCOME_COOLDOWN_MINUTES, usec_per_minute. split.
           ++ intros Hb. exists lv, last. repeat split; try done.
              injection Hb as Hb. by apply bool_decide_eq_true in Hb.
           ++ intros (lv' & last' & Hlv' & Hp' & _ & Hlt).
              injection Hlv' as <-. rewrite Hp in Hp'. injection Hp' as <-.
              f_equal. by apply bool_decide_eq_true.
        -- split.
           ++ destruct (has_utc_offset c lv); simpl; discriminate.
           ++ intros (lv' & last' & Hlv' & Hp' & _).
              injection Hlv' as <-. congruence.
    + split; [discriminate|]. intros (? & ? & ? & _). discriminate.
  - intros e. unfold shown, _should_show_welcome, datetime_now. run_monad.
    destruct (given (last_visit s)) as [lv|] eqn:Hlv; simpl.
    + destruct (conversation_history s) as [|h hs] eqn:Hh; simpl.
      * split; [discriminate|]. intros (_ & ? & _ & Hne & _). done.
      * fold c. destruct (fromisoformat c lv) as [last|] eqn:Hp; simpl.
        -- split; [discriminate|]. intros (_ & lv' & Hlv' & _ & Hp' & _).
           injection Hlv' as <-. congruence.
        -- destruct (has_utc_offset c lv) eqn:Ho; simpl.
           ++ split.
              ** intros [= <-]. split; [done|]. by exists lv.
              ** intros (-> & _). done.
           ++ split; [discriminate|]. intros (_ & lv' & Hlv' & _ & _ & Ho').
              injection Hlv' as <-. congruence.
    + split; [discriminate|]. intros (_ & ? & ? & _). discriminate.
  - unfold shown, _should_show_welcome, datetime_now. run_monad.
    destruct (given (last_visit s)) as [lv|]; simpl; [|by right; left].
    destruct (conversation_history s); simpl; [by right; left|].
    destruct (fromisoformat (wall_clock E) lv); simpl.
    + case_bool_decide; [by left|by right; left].
    + destruct (has_utc_offset (wall_clock E) lv); simpl; [right; right; eauto|by right; left].
Qed.

(** A tool call touches the tool modules only, and always yields a
    message. *)
Lemma run_tool_call_total (call : tool_call) (w : world) :
  ∃ m v, run_tool_call E call w =
         (Ok m, {| sessions := sessions w; llm_calls := llm_calls w; tool_modules := v |}).
Proof.
  unfold run_tool_call, on_tools. run_monad.
  destruct (tools_by_name E !! tc_name call) as [t|]; simpl.
  - destruct (invoke t (tc_args call) (tool_modules w)) as [[r|e] v]; simpl; eauto.
  - destruct w; simpl; eauto.
Qed.

Lemma run_tool_calls_total (calls : list tool_call) (w : world) :
  ∃ ms v, run_tool_calls E calls w =
          (Ok ms, {| sessions := sessions w; llm_calls := llm_calls w; tool_modules := v |}) ∧
          Forall2 (λ call m, ∃ wi wi', run_tool_call E call wi = (Ok m, wi')) calls ms.
Proof.
  revert w. induction calls as [|call rest IH]; intros w.
  - exists [], (tool_modules w). destruct w; simpl. split; [done|constructor].
  - destruct (run_tool_call_total call w) as (m & v & Hm).
    destruct (IH {| sessions := sessions w; llm_calls := llm_calls w; tool_modules := v |})
      as (ms & v' & Hms & Hall).
    exists (m :: ms), v'. split.
    + simpl. unfold mbind at 1, M_bind at 1. rewrite Hm.
      unfold mbind at 1, M_bind at 1. rewrite Hms. done.
    + constructor; [eauto|done].
Qed.

(** C6. A call naming a tool outside the registry yields the "not found"
    tool message, a tool that raises yields the "execution failed: cause"
    tool message, and the loop over the requested calls always runs to its
    end: it returns one message per call, in call order, never raises, and
    touches neither the session files nor the model log. *)
Theorem tool_faults_become_tool_messages :
  (∀ call w, tools_by_name E !! tc_name call = None →
     run_tool_call E call w =
     (Ok (ToolMessage (not_found_text (tc_name call)) (tc_id call)), w)) ∧
  (∀ call w t e v, tools_by_name E !! tc_name call = Some t →
     invoke t (tc_args call) (tool_modules w) = (Raise e, v) →
     run_tool_call E call w =
     (Ok (ToolMessage (failure_text e) (tc_id call)),
      {| sessions := sessions w; llm_calls := llm_calls w; tool_modules := v |})) ∧
  (∀ call w t r v, tools_by_name E !! tc_name call = Some t →
     invoke t (tc_args call) (tool_modules w) = (Ok r, v) →
     run_tool_call E call w =
     (Ok (ToolMessage r (tc_id call)),
      {| sessions := sessions w; llm_calls := llm_calls w; tool_modules := v |})) ∧
  (∀ calls w, ∃ ms w',
     run_tool_calls E calls w = (Ok ms, w') ∧
     sessions w' = sessions w ∧ llm_calls w' = llm_calls w ∧
     Forall2 (λ call m, ∃ wi wi', run_tool_call E call wi = (Ok m, wi')) calls ms).
Proof.
  repeat split.
  - intros call w H. unfold run_tool_call. by rewrite H.
  - intros call w t e v H Hi. unfold run_tool_call, on_tools. rewrite H.
    run_monad. by rewrite Hi.
  - intros call w t r v H Hi. unfold run_tool_call, on_tools. rewrite H.
    run_monad. by rewrite Hi.
  - intros calls w. destruct (run_tool_calls_total calls w) as (ms & v & H & Hall).
    eexists _, _. split; [exact H|]. simpl. done.
Qed.

(** C1. One info-mode turn sends at least one and at most two requests to
    the model.  The second request is sent exactly when the first reply asks
    for tools: it carries the first request, that reply and the results of
    its calls, and the turn's text is the text of the second reply, whatever
    tool calls that reply carries.  Those calls are never run: the tool
    modules are left as the calls of the first reply left them, and the
    session files are not touched. *)
Theorem info_flow_invokes_model_at_most_twice
    (p : profile) (text uid : string) (hist : list message) (w : world) :
  let first_request := [SystemMessage INFO_FLOW_PROMPT] ++ hist ++ [HumanMessage text] in
  let first := llm E (length (llm_calls w)) InformationTools first_request in
  let w1 := {| sessions := sessions w;
               llm_calls := llm_calls w ++ [(InformationTools, first_request)];
               tool_modules := tool_modules w |} in
  ∃ new_calls,
    llm_calls (_run_info_flow E p text uid hist w).2 = llm_calls w ++ new_calls ∧
    1 ≤ length new_calls ≤ 2 ∧
    new_calls !! 0 = Some (InformationTools, first_request) ∧
    (length new_calls = 2 ↔ ∃ a, first = Ok a ∧ tool_calls a ≠ []) ∧
    (∀ a, first = Ok a → tool_calls a = [] →
       (_run_info_flow E p text uid hist w).1 = Ok (content a)) ∧
    (∀ ts second_request, new_calls !! 1 = Some (ts, second_request) →
       ts = InformationTools ∧
       (_run_info_flow E p text uid hist w).1 =
       match llm E (S (length (llm_calls w))) InformationTools second_request with
       | Ok final_ai => Ok (content final_ai)
       | Raise e => Raise e
       end) ∧
    (∀ a, first = Ok a → tool_calls a ≠ [] →
       ∃ tool_messages,
         (run_tool_calls E (tool_calls a) w1).1 = Ok tool_messages ∧
         new_calls !! 1 =
           Some (InformationTools, first_request ++ [as_message a] ++ tool_messages)) ∧
    tool_modules (_run_info_flow E p text uid hist w).2 =
      match first with
      | Ok a => tool_modules (run_tool_calls E (tool_calls a) w1).2
      | Raise _ => tool_modules w
      end ∧
    sessions (_run_info_flow E p text uid hist w).2 = sessions w.
Proof.
  intros first_request first w1.
  unfold _run_info_flow. fold first_request.
  unfold llm_invoke at 1. run_monad. fold first. fold w1.
  destruct first as [a|e] eqn:Hfirst; simpl.
  - destruct (tool_calls a) as [|c cs] eqn:Hcalls.
    + exists [(InformationTools, first_request)]. simpl.
      repeat split; try done; try lia.
      * intros (a' & Ha' & Hne). injection Ha' as <-. done.
      * intros a' Ha' _. by injection Ha' as <-.
      * intros a' Ha' Hne. injection Ha' as <-. done.
    + destruct (run_tool_calls_total (c :: cs) w1) as (ms & v & Hrun & _).
      rewrite Hrun. cbn [fst snd sessions llm_calls tool_modules w1].
      rewrite length_app. simpl. rewrite Nat.add_1_r.
      match goal with
      | |- context [llm E (S _) InformationTools ?req] => set (second_request := req)
      end.
      exists [(InformationTools, first_request); (InformationTools, second_request)].
      destruct (llm E (S (length (llm_calls w))) InformationTools second_request)
        as [final_ai|e] eqn:Hsecond; cbn [fst snd llm_calls tool_modules sessions].
      all: rewrite <- (app_assoc (llm_calls w)); cbn [app length lookup list_lookup].
      all: split; [reflexivity|]; split; [lia|]; split; [reflexivity|].
      all: split; [split; [intros _; exists a; rewrite Hcalls; done|done]|].
      all: split; [intros a' Ha'; injection Ha' as <-; rewrite Hcalls; done|].
      all: split; [intros ts req Hreq; injection Hreq as <- <-; rewrite Hsecond; done|].
      all: split; [intros a' Ha' _; injection Ha' as <-; exists ms; rewrite Hcalls, Hrun;
                   split; reflexivity|].
      all: done.
  - exists [(InformationTools, first_request)]. simpl.
    repeat split; try done; try lia. intros (a & Ha & _). discriminate.
Qed.

(** *** The graph never looks at the session files *)

Lemma blind_ret {A} (a : A) : session_blind (mret a).
Proof. done. Qed.

Lemma blind_raise {A} e : session_blind (raise e : M world A).
Proof. done. Qed.

Lemma blind_of_result {A} (r : result A) : session_blind (of_result r).
Proof. done. Qed.

Lemma blind_bind {A B} (c : M world A) (k : A → M world B) :
  session_blind c → (∀ a, session_blind (k a)) → session_blind (c ≫= k).
Proof.
  intros Hc Hk w s. unfold mbind, M_bind. rewrite Hc.
  destruct (c w) as [[a|e] w']; simpl; [apply Hk|done].
Qed.

Lemma blind_llm_invoke ts msgs : session_blind (llm_invoke E ts msgs).
Proof. intros w s. unfold llm_invoke. run_monad. done. Qed.

Lemma blind_on_tools {A} (c : M tools_state A) : session_blind (on_tools c).
Proof.
  intros w s. unfold on_tools, zoom. simpl.
  destruct (c (tool_modules w)) as [r v]. done.
Qed.

Lemma blind_run_node nd st : session_blind (run_node E nd st).
Proof.
  destruct nd; simpl; try apply blind_on_tools.
  - unfold empathy_node. apply blind_bind; [apply blind_llm_invoke|]. intros; apply blind_ret.
  - unfold info_node. apply blind_bind; [apply blind_llm_invoke|]. intros; apply blind_ret.
Qed.

Lemma blind_stream_from steps nd st : session_blind (stream_from E steps nd st).
Proof.
  revert nd st. induction steps as [|steps IH]; intros nd st; simpl.
  - apply blind_raise.
  - apply blind_bind; [apply blind_run_node|]. intros update.
    destruct (next_node nd _) as [[nd'|]|].
    + apply blind_bind; [apply IH|]. intros; apply blind_ret.
    + apply blind_ret.
    + apply blind_raise.
Qed.

Lemma blind_app_stream inputs : session_blind (app_stream E inputs).
Proof.
  unfold app_stream. destruct (entry_node inputs); [apply blind_stream_from|apply blind_raise].
Qed.

(** *** The welcome check only reads the files *)

Lemma should_show_welcome_reads (s : session) (mode : string) (st : store) :
  ∃ r st', _should_show_welcome E s mode st = (r, st') ∧ files st' = files st.
Proof.
  unfold _should_show_welcome, datetime_now. run_monad.
  destruct (negb (String.eqb mode "chat")); [eauto|].
  destruct (given (last_visit s)) as [lv|]; [|eauto].
  destruct (conversation_history s); [eauto|].
  destruct (fromisoformat (wall_clock E) lv); [eauto|].
  destruct (has_utc_offset (wall_clock E) lv); eauto.
Qed.

Lemma get_welcome_message_reads (uid : string) (st : store) :
  ∃ t st', get_welcome_message (wall_clock E) uid st = (Ok t, st') ∧ files st' = files st.
Proof.
  unfold get_welcome_message, load_session, datetime_now. run_monad.
  destruct (given (last_visit _)); [|eauto].
  destruct (fromisoformat (wall_clock E) _); [|eauto].
  repeat case_match; eauto.
Qed.

Lemma on_sessions_run {A} (c : M store A) (w : world) :
  on_sessions c w = ((c (sessions w)).1, with_sessions (c (sessions w)).2 w).
Proof. unfold on_sessions, zoom. by destruct (c (sessions w)). Qed.

Lemma load_session_run (uid : string) (st : store) :
  load_session uid st = (Ok (load_session_from (files st) uid), st).
Proof. reflexivity. Qed.

Lemma with_sessions_same (w : world) : with_sessions (sessions w) w = w.
Proof. by destruct w. Qed.

(** A welcome check that raises ends the turn before anything else is
    done. *)
Lemma welcome_fault_outcome (uid text mode : string) (w : world) (e : string) :
  (_should_show_welcome E (load_session_from (files (sessions w)) uid) mode
     (sessions w)).1 = Raise e →
  ∃ st1, files st1 = files (sessions w) ∧
    process_user_message E uid text mode w = (Raise e, with_sessions st1 w).
Proof.
  intros Hshow. unfold process_user_message.
  rewrite bind_unfold, on_sessions_run, load_session_run.
  cbn [fst snd]. rewrite with_sessions_same.
  set (session := load_session_from (files (sessions w)) uid) in *.
  destruct (should_show_welcome_reads session mode (sessions w)) as (r & st1 & Hrun & Hf1).
  rewrite Hrun in Hshow. cbn [fst] in Hshow. subst r.
  rewrite bind_unfold, on_sessions_run, Hrun. cbn [fst snd].
  by exists st1.
Qed.

Lemma fault_outcome (uid text mode : string) (w : world) (e : string) (w1 : world) (b : bool) :
  mode ≠ "info" →
  (_should_show_welcome E (load_session_from (files (sessions w)) uid) mode
     (sessions w)).1 = Ok b →
  (events ← app_stream E (graph_inputs uid text mode w);
   of_result (collect_response events "")) w = (Raise e, w1) →
  ∃ st2, files st2 = files (sessions w) ∧
    process_user_message E uid text mode w = (Ok SYSTEM_ERROR, with_sessions st2 w1).
Proof.
  intros Hmode Hcheck Hdrive.
  assert (Hblind : session_blind
            (events ← app_stream E (graph_inputs uid text mode w);
             of_result (collect_response events ""))).
  { apply blind_bind; [apply blind_app_stream|]. intros; apply blind_of_result. }
  assert (Hm : String.eqb mode "info" = false) by by apply String.eqb_neq.
  unfold process_user_message.
  rewrite bind_unfold, on_sessions_run, load_session_run.
  cbn [fst snd]. rewrite with_sessions_same.
  set (session := load_session_from (files (sessions w)) uid).
  destruct (should_show_welcome_reads session mode (sessions w)) as (r & st1 & Hshow & Hf1).
  fold session in Hcheck. rewrite Hshow in Hcheck. cbn [fst] in Hcheck. subst r.
  rewrite bind_unfold, on_sessions_run, Hshow. cbn [fst snd].
  assert (Hprelude : ∃ wt st2, files st2 = files (sessions w) ∧
            (if b
             then w0 ← on_sessions (get_welcome_message (wall_clock E) uid); mret (Some w0)
             else mret None) (with_sessions st1 w) = (Ok wt, with_sessions st2 w)).
  { destruct b.
    - destruct (get_welcome_message_reads uid st1) as (t & st2 & Hw & Hf2).
      exists (Some t), st2. split; [congruence|].
      rewrite bind_unfold, on_sessions_run. cbn [sessions with_sessions].
      rewrite Hw. done.
    - exists None, st1. done. }
  destruct Hprelude as (wt & st2 & Hf2 & Hpre).
  rewrite bind_unfold, Hpre.
  unfold graph_inputs in Hdrive, Hblind. fold session in Hdrive, Hblind.
  destruct (recent_context (last8 (conversation_history session)))
    as [history_messages texts] eqn:Hctx.
  cbn [fst snd] in Hdrive, Hblind.
  rewrite Hm. rewrite bind_unfold. unfold try_except.
  specialize (Hblind w st2). rewrite Hdrive in Hblind. cbn [fst snd] in Hblind.
  rewrite bind_unfold in Hblind. rewrite bind_unfold.
  exists st2. split; [done|].
  destruct (app_stream E _ (with_sessions st2 w)) as [[events|e'] w'] eqn:Hs.
  - unfold of_result in Hblind. rewrite bind_unfold. unfold of_result at 1.
    destruct (collect_response events "") as [t|e''].
    + discriminate.
    + injection Hblind as _ ->. done.
  - injection Hblind as _ ->. done.
Qed.

(** C5. When driving the graph on the turn's inputs raises, whether in a
    node or while the streamed events are read, [process_user_message]
    returns the fixed error text.  The world it leaves is the one in which
    the single run stopped: no further model request is made, and the session
    files are exactly those found at the start of the turn.  The graph is
    driven once the welcome check has returned; a welcome check that raises
    ends the turn with its own exception, before any model request. *)
Theorem graph_fault_returns_fixed_text (uid text mode : string) (w : world)
    (e : string) (w1 : world) :
  mode ≠ "info" →
  (events ← app_stream E (graph_inputs uid text mode w);
   of_result (collect_response events "")) w = (Raise e, w1) →
  match (_should_show_welcome E (load_session_from (files (sessions w)) uid) mode
           (sessions w)).1 with
  | Ok _ =>
      (process_user_message E uid text mode w).1 = Ok SYSTEM_ERROR ∧
      files (sessions (process_user_message E uid text mode w).2) = files (sessions w) ∧
      llm_calls (process_user_message E uid text mode w).2 = llm_calls w1 ∧
      tool_modules (process_user_message E uid text mode w).2 = tool_modules w1
  | Raise e' =>
      (process_user_message E uid text mode w).1 = Raise e' ∧
      files (sessions (process_user_message E uid text mode w).2) = files (sessions w) ∧
      llm_calls (process_user_message E uid text mode w).2 = llm_calls w ∧
      tool_modules (process_user_message E uid text mode w).2 = tool_modules w
  end.
Proof.
  intros Hmode Hdrive.
  destruct (_should_show_welcome E _ mode (sessions w)).1 as [b|e'] eqn:Hcheck.
  - destruct (fault_outcome uid text mode w e w1 b Hmode Hcheck Hdrive) as (st2 & Hf & ->).
    done.
  - destruct (welcome_fault_outcome uid text mode w e' Hcheck) as (st1 & Hf & ->).
    done.
Qed.

End Engine.

Lemma welcome_back_policy_witness :
  (_should_show_welcome Scenario.next_day
     (load_session_from (files Scenario.returning_user) "u1") "chat"
     Scenario.returning_user).1 = Ok true ∧
  (get_welcome_message Scenario.next_day_clock "u1" Scenario.returning_user).1 =
    Ok "영희님 밤사이 편안하셨나요?".
Proof.
  destruct (welcome_back_policy Scenario.next_day
              (load_session_from (files Scenario.returning_user) "u1")
              Scenario.returning_user "u1") as (Hshown & _ & _ & _ & _ & Hdays).
  split.
  - apply Hshown. exists "2024-01-01T00:00:00", 0%Z.
    split; [reflexivity|]. split; [reflexivity|]. split; [discriminate|].
    vm_compute. reflexivity.
  - destruct (Hdays "2024-01-01T00:00:00" 0%Z eq_refl eq_refl) as (_ & Hone & _).
    apply Hone. vm_compute. split; [discriminate|reflexivity].
Defined.

Lemma info_flow_invokes_model_at_most_twice_witness :
  (_run_info_flow Scenario.eager_llm ∅ "상속 순위" "u1" [] Scenario.fresh_world).1 =
    Ok "상속 순위는 다음과 같습니다." ∧
  length (llm_calls (_run_info_flow Scenario.eager_llm ∅ "상속 순위" "u1" []
                       Scenario.fresh_world).2) = 2.
Proof.
  destruct (info_flow_invokes_model_at_most_twice Scenario.eager_llm ∅ "상속 순위" "u1" []
              Scenario.fresh_world)
    as (new_calls & Hlog & Hlen & _ & Htwice & _ & Hsecond & _).
  assert (Htwo : length new_calls = 2).
  { apply Htwice. eexists. split; [reflexivity|]. discriminate. }
  destruct new_calls as [|c1 [|[ts rq] [|c3 rest]]]; try discriminate.
  split.
  - destruct (Hsecond ts rq eq_refl) as [_ Hout]. exact Hout.
  - rewrite Hlog. reflexivity.
Defined.

Lemma graph_fault_returns_fixed_text_witness :
  (process_user_message Scenario.llm_down "u1" "나 너무 심심해" "chat"
     Scenario.fresh_world).1 = Ok SYSTEM_ERROR ∧
  files (sessions (process_user_message Scenario.llm_down "u1" "나 너무 심심해" "chat"
                     Scenario.fresh_world).2) = ∅.
Proof.
  assert (Hmode : "chat" ≠ "info") by discriminate.
  destruct (graph_fault_returns_fixed_text Scenario.llm_down "u1" "나 너무 심심해" "chat"
              Scenario.fresh_world "Connection error."
              ((events ← app_stream Scenario.llm_down
                           (graph_inputs "u1" "나 너무 심심해" "chat" Scenario.fresh_world);
                of_result (collect_response events "")) Scenario.fresh_world).2
              Hmode) as (Htext & Hfiles & _).
  - vm_compute. reflexivity.
  - split; [exact Htext|exact Hfiles].
Defined.

Lemma tool_faults_become_tool_messages_witness :
  run_tool_calls Scenario.llm_down
    [ {| tc_name := "search_weather"; tc_args := ∅; tc_id := "call_1" |};
      {| tc_name := "search_legacy"; tc_args := ∅; tc_id := "call_2" |} ]
    Scenario.fresh_world =
  (Ok [ ToolMessage "'search_weather' 도구를 찾을 수 없습니다." "call_1";
        ToolMessage "도구 실행 실패: index unavailable" "call_2" ],
   Scenario.fresh_world).
Proof.
  destruct (tool_faults_become_tool_messages Scenario.llm_down) as (Hmissing & Hraise & _).
  simpl. rewrite bind_unfold.
  rewrite (Hmissing {| tc_name := "search_weather"; tc_args := ∅; tc_id := "call_1" |}
             Scenario.fresh_world eq_refl).
  rewrite bind_unfold, bind_unfold.
  rewrite (Hraise {| tc_name := "search_legacy"; tc_args := ∅; tc_id := "call_2" |}
             Scenario.fresh_world Scenario.broken_tool "index unavailable"
             (tool_modules Scenario.fresh_world) eq_refl eq_refl).
  reflexivity.
Defined.


(** C4, at a concrete input. With the language model unreachable, a chat
    turn returns the fixed error text, while an info turn on the same engine
    returns no string at all: the exception of the model call leaves
    [process_user_message]. *)
Theorem info_mode_fault_escapes :
  (process_user_message Scenario.llm_down "u1" "공영장례 지원 대상" "chat"
     Scenario.fresh_world).1 = Ok SYSTEM_ERROR ∧
  (process_user_message Scenario.llm_down "u1" "공영장례 지원 대상" "info"
     Scenario.fresh_world).1 = Raise "Connection error.".
Proof. split; vm_compute; reflexivity. Qed.

End ConversationEngineFacts.

(** * Properties of the companion tools *)

Module RecommendBaFacts.

Import RecommendBa.

Section Tools.

Variable E : env.

(** What the recommender's loop adds: a list of picks, each a fresh label
    with the tags printed next to it, taken from the matches. *)
Lemma pick_activities_picks (already : gset string) (matches : list vmatch) :
  ∀ (seen_local : gset string) (results : list string),
  ∃ picks : list (string * pyval),
    pick_activities already matches seen_local results =
      (list_to_set picks.*1 ∪ seen_local,
       results ++ map (λ p, activity_line p.1 p.2) picks) ∧
    NoDup picks.*1 ∧
    (∀ a, a ∈ picks.*1 → (a ∉ already) ∧ (a ∉ seen_local)) ∧
    (length results < 3 → length results + length picks ≤ 3).
Proof.
  induction matches as [|m rest IH]; intros seen_local results; simpl.
  - exists []. simpl. rewrite app_nil_r.
    split; [f_equal; set_solver|]. split; [constructor|].
    split; [|lia]. intros x Hx. by apply elem_of_nil in Hx.
  - set (meta := default no_metadata (m_metadata m)).
    set (a := activity_label meta). clearbody a meta.
    destruct (negb (nonempty a) || bool_decide (a ∈ already)
              || bool_decide (a ∈ seen_local)) eqn:Hskip.
    + apply IH.
    + apply orb_false_iff in Hskip as [Hskip Hseen].
      apply orb_false_iff in Hskip as [_ Halready].
      apply bool_decide_eq_false in Hseen, Halready.
      case_bool_decide as Hlen.
      * exists [(a, FEELING_TAGS meta)]. simpl.
        split; [f_equal; set_solver|]. split; [apply NoDup_singleton|].
        split.
        -- intros x Hx. apply list_elem_of_singleton in Hx. by subst.
        -- rewrite length_app in Hlen. simpl in Hlen. lia.
      * destruct (IH ({[a]} ∪ seen_local)
                     (results ++ [activity_line a (FEELING_TAGS meta)]))
          as (picks & Heq & Hnd & Hfresh & Hlen').
        exists ((a, FEELING_TAGS meta) :: picks). simpl.
        split; [rewrite Heq; f_equal; [set_solver|by rewrite <- app_assoc]|].
        split; [constructor; [|done]; intros Hin; apply Hfresh in Hin; set_solver|].
        split.
        -- intros x Hx. apply elem_of_cons in Hx as [->|Hx]; [done|].
           apply Hfresh in Hx. set_solver.
        -- rewrite length_app in Hlen, Hlen'. simpl in Hlen, Hlen'. lia.
Qed.

Lemma lookup_update_set uid seen (d : gmap string (gset string)) :
  default ∅ (update_set uid seen (touch uid d) !! uid) = default ∅ (d !! uid) ∪ seen.
Proof.
  unfold update_set, touch. rewrite !lookup_insert_eq. done.
Qed.

Lemma lookup_touch uid (d : gmap string (gset string)) :
  default ∅ (touch uid d !! uid) = default ∅ (d !! uid).
Proof. unfold touch. by rewrite lookup_insert_eq. Qed.

(** The recommender, run in one step. *)
Lemma recommend_activities_tool_run (emo mob uid : string) (st : state) :
  recommend_activities_tool E emo mob uid st =
  if ready E then
    match index_query E (length (queries st)) (activity_request E emo mob) with
    | Raise e => (Raise e, logged (activity_request E emo mob) st)
    | Ok res =>
        let sel := pick_activities (recommended_to st uid) res ∅ [] in
        match sel.2 with
        | [] =>
            (Ok NOTHING_NEW,
             {| recommended_activities_by_user :=
                  touch (cache_key uid) (recommended_activities_by_user st);
                asked_questions_by_user := asked_questions_by_user st;
                queries := queries st ++ [activity_request E emo mob] |})
        | _ :: _ =>
            (Ok (join newline sel.2),
             {| recommended_activities_by_user :=
                  update_set (cache_key uid) sel.1
                    (touch (cache_key uid) (recommended_activities_by_user st));
                asked_questions_by_user := asked_questions_by_user st;
                queries := queries st ++ [activity_request E emo mob] |})
        end
    end
  else (Ok DB_ERROR, st).
Proof.
  unfold recommend_activities_tool, query_index, recommended_of, update_recommended,
    recommended_to.
  destruct (ready E); simpl; [|done]. run_monad.
  destruct (index_query E _ _) as [res|e]; simpl; [|done].
  destruct (pick_activities _ res ∅ []) as [seen results]. simpl.
  destruct results; done.
Qed.

Lemma selection_picks (emo mob uid : string) (st : state) :
  ∃ picks : list (string * pyval),
    selection_in E emo mob uid st =
      (list_to_set picks.*1, map (λ p, activity_line p.1 p.2) picks) ∧
    NoDup picks.*1 ∧ length picks ≤ 3 ∧
    (∀ a, a ∈ picks.*1 → a ∉ recommended_to st uid).
Proof.
  unfold selection_in.
  assert (Hnone : ∃ picks : list (string * pyval),
            ((∅ : gset string), ([] : list string)) =
              (list_to_set picks.*1, map (λ p, activity_line p.1 p.2) picks) ∧
            NoDup picks.*1 ∧ length picks ≤ 3 ∧
            (∀ a, a ∈ picks.*1 → a ∉ recommended_to st uid)).
  { exists []. simpl. split; [done|]. split; [constructor|]. split; [lia|].
    intros a Ha. by apply elem_of_nil in Ha. }
  destruct (ready E); [|exact Hnone].
  destruct (index_query E _ _) as [res|e]; [|exact Hnone].
  destruct (pick_activities_picks (recommended_to st uid) res ∅ [])
    as (picks & Heq & Hnd & Hfresh & Hlen).
  exists picks. rewrite Heq. simpl.
  split; [f_equal; set_solver|]. split; [done|]. split; [simpl in Hlen; lia|].
  intros a Ha. apply Hfresh in Ha as [Ha _]. exact Ha.
Qed.

Lemma join_cons_nonempty (sep x : string) (l : list string) :
  x ≠ "" → join sep (x :: l) ≠ "".
Proof.
  intros Hx. destruct l; simpl; [done|]. destruct x; [done|]. discriminate.
Qed.

Lemma recommend_prints (emo mob uid : string) (st : state) :
  prints (recommend_activities_tool E emo mob uid st).1 (selection_in E emo mob uid st).
Proof.
  destruct (selection_picks emo mob uid st) as (picks & Hsel & Hnd & Hlen & _).
  split; [|exists picks; rewrite Hsel; done].
  rewrite recommend_activities_tool_run. unfold selection_in.
  destruct (ready E); simpl; [|by left].
  destruct (index_query E _ _) as [res|e]; simpl; [|right; right; eauto].
  destruct (pick_activities _ res ∅ []) as [seen [|l ls]]; simpl; [|done].
  right. by left.
Qed.

Lemma recommended_after (emo mob uid : string) (st : state) :
  recommended_to (recommend_activities_tool E emo mob uid st).2 uid =
  recommended_to st uid ∪ (selection_in E emo mob uid st).1.
Proof.
  destruct (selection_picks emo mob uid st) as (picks & Hsel & _).
  revert Hsel. rewrite recommend_activities_tool_run. unfold selection_in.
  destruct (ready E); simpl; [|set_solver].
  destruct (index_query E _ _) as [res|e]; simpl; [|set_solver].
  destruct (pick_activities _ res ∅ []) as [seen [|l ls]]; simpl; intros Hsel.
  - unfold recommended_to at 1. simpl. rewrite lookup_touch.
    injection Hsel as -> Hl. destruct picks; [|discriminate]. simpl.
    unfold recommended_to. set_solver.
  - unfold recommended_to at 1. simpl. by rewrite lookup_update_set.
Qed.

(** C2. Of two calls of the recommender made one after the other for the
    same user, emotion and mobility, the second selects no activity label
    that the first selected.  Either call prints the lines of its own
    selection and, when it selected nothing, the fixed "nothing new" text
    (or the connection-error text, or fails with the index); it never
    returns the empty string. *)
Theorem recommend_twice_never_repeats (emo mob uid : string) (st : state) :
  let run1 := recommend_activities_tool E emo mob uid st in
  let run2 := recommend_activities_tool E emo mob uid run1.2 in
  let sel1 := selection_in E emo mob uid st in
  let sel2 := selection_in E emo mob uid run1.2 in
  prints run1.1 sel1 ∧ prints run2.1 sel2 ∧
  sel1.1 ## sel2.1 ∧
  run1.1 ≠ Ok "" ∧ run2.1 ≠ Ok "" ∧
  (∀ res, ready E = true →
     index_query E (length (queries run1.2)) (activity_request E emo mob) = Ok res →
     sel2.2 = [] → run2.1 = Ok NOTHING_NEW).
Proof.
  intros run1 run2 sel1 sel2.
  assert (Hnonempty : ∀ r sel, prints r sel → r ≠ Ok "").
  { intros r sel [Hout (picks & _ & _ & _ & Hlines)].
    destruct (sel.2) as [|l ls] eqn:Hl.
    - destruct Hout as [->|[->|[e ->]]]; discriminate.
    - rewrite Hout. intros Heq. injection Heq as Heq. revert Heq.
      apply join_cons_nonempty. destruct picks as [|p ps]; [discriminate|].
      injection Hlines as -> _. discriminate. }
  split; [apply recommend_prints|]. split; [apply recommend_prints|].
  split; [|split; [|split]].
  - destruct (selection_picks emo mob uid run1.2) as (picks & Hsel & _ & _ & Hfresh).
    fold run1 sel2 in Hsel, Hfresh. rewrite Hsel. simpl.
    intros a Ha1 Ha2. apply elem_of_list_to_set in Ha2.
    apply Hfresh in Ha2. apply Ha2. unfold run1.
    rewrite recommended_after. fold sel1. set_solver.
  - eapply Hnonempty, recommend_prints.
  - eapply Hnonempty, recommend_prints.
  - intros res Hready Hq Hnone. unfold run2.
    rewrite recommend_activities_tool_run. fold run1.
    unfold sel2, selection_in in Hnone. fold run1 in Hnone.
    rewrite Hready, Hq in *. simpl.
    destruct (pick_activities _ res ∅ []) as [seen results]. simpl in *.
    by rewrite Hnone.
Qed.

(** *** The question search *)

Lemma pick_questions_picks (already : gset string) (matches : list vmatch) :
  ∀ (seen_local : gset string) (questions : list string),
  ∃ picks : list (string * pyval),
    pick_questions already matches seen_local questions =
      (list_to_set picks.*1 ∪ seen_local,
       questions ++ map (λ p, question_line p.1 p.2) picks) ∧
    (∀ q, q ∈ picks.*1 →
       (q ∉ already) ∧
       ∃ m meta, m ∈ matches ∧ m_metadata m = Some meta ∧ question_text meta = Some q).
Proof.
  induction matches as [|m rest IH]; intros seen_local questions; simpl.
  - exists []. simpl. rewrite app_nil_r. split; [f_equal; set_solver|].
    intros x Hx. by apply elem_of_nil in Hx.
  - assert (Hskip : ∃ picks : list (string * pyval),
              pick_questions already rest seen_local questions =
                (list_to_set picks.*1 ∪ seen_local,
                 questions ++ map (λ p, question_line p.1 p.2) picks) ∧
              (∀ q, q ∈ picks.*1 →
                 (q ∉ already) ∧
                 ∃ m' meta, m' ∈ m :: rest ∧ m_metadata m' = Some meta ∧
                            question_text meta = Some q)).
    { destruct (IH seen_local questions) as (picks & Heq & Hfrom).
      exists picks. split; [done|]. intros q Hq.
      destruct (Hfrom q Hq) as (Hfresh & m' & meta & Hin & Hm).
      split; [done|]. exists m', meta. split; [by right|done]. }
    destruct (m_metadata m) as [meta|] eqn:Hmeta; simpl; [|exact Hskip].
    destruct (question_text meta) as [q_text|] eqn:Hq; [|exact Hskip].
    destruct (negb (nonempty q_text) || bool_decide (q_text ∈ already)
              || bool_decide (q_text ∈ seen_local)) eqn:Hcond; [exact Hskip|].
    apply orb_false_iff in Hcond as [Hcond _].
    apply orb_false_iff in Hcond as [_ Halready].
    apply bool_decide_eq_false in Halready.
    assert (Hhere : ∃ m' meta', m' ∈ m :: rest ∧ m_metadata m' = Some meta' ∧
                                question_text meta' = Some q_text).
    { exists m, meta. split; [by left|done]. }
    case_bool_decide as Hlen.
    + exists [(q_text, intent meta)]. simpl. split; [f_equal; set_solver|].
      intros x Hx. apply list_elem_of_singleton in Hx. by subst.
    + destruct (IH ({[q_text]} ∪ seen_local)
                   (questions ++ [question_line q_text (intent meta)]))
        as (picks & Heq & Hfrom).
      exists ((q_text, intent meta) :: picks). simpl.
      split; [rewrite Heq; f_equal; [set_solver|by rewrite <- app_assoc]|].
      intros x Hx. apply elem_of_cons in Hx as [->|Hx]; [done|].
      destruct (Hfrom x Hx) as (Hfresh & m' & meta' & Hin & Hm).
      split; [done|]. exists m', meta'. split; [by right|done].
Qed.

(** When every candidate carries a question that was already asked, the
    loop selects nothing. *)
Lemma pick_questions_all_seen (already : gset string) (matches : list vmatch) :
  Forall (λ m, ∃ meta q, m_metadata m = Some meta ∧ question_text meta = Some q ∧
                         q ∈ already) matches →
  ∀ seen_local questions,
    pick_questions already matches seen_local questions = (seen_local, questions).
Proof.
  induction 1 as [|m rest (meta & q & Hm & Hq & Hin) _ IH]; intros seen_local questions;
    simpl; [done|].
  rewrite Hm. simpl. rewrite Hq.
  rewrite (bool_decide_eq_true_2 _ Hin), orb_true_r. simpl. apply IH.
Qed.

Lemma fallback_lines_with_metadata (ms : list vmatch) :
  Forall (λ m, is_Some (m_metadata m)) ms →
  fallback_lines ms = Ok (map repeated_line ms).
Proof.
  induction 1 as [|m rest [meta Hm] _ IH]; simpl; [done|].
  unfold fallback_line, repeated_line. rewrite Hm, IH. done.
Qed.

(** The question search, run in one step. *)
Lemma search_empathy_questions_tool_run (ctx : string) (depth : Z) (uid : string)
    (recent : option (list string)) (st : state) :
  search_empathy_questions_tool E ctx depth uid recent st =
  if ready E then
    let rq := question_request E ctx depth recent in
    match index_query E (length (queries st)) rq with
    | Raise e => (Raise e, logged rq st)
    | Ok res =>
        let sel := pick_questions (asked_by st uid) res ∅ [] in
        let touched :=
          {| recommended_activities_by_user := recommended_activities_by_user st;
             asked_questions_by_user := touch (cache_key uid) (asked_questions_by_user st);
             queries := queries st ++ [rq] |} in
        let recorded :=
          {| recommended_activities_by_user := recommended_activities_by_user st;
             asked_questions_by_user :=
               update_set (cache_key uid) sel.1
                 (touch (cache_key uid) (asked_questions_by_user st));
             queries := queries st ++ [rq] |} in
        let answer (questions : list string) :=
          match questions with [] => NO_QUESTION | _ :: _ => join newline questions end in
        match sel.2, res with
        | [], _ :: _ =>
            match fallback_lines (take 3 res) with
            | Raise e => (Raise e, touched)
            | Ok questions => (Ok (answer questions), recorded)
            end
        | questions, _ => (Ok (answer questions), recorded)
        end
    end
  else (Ok DB_ERROR, st).
Proof.
  unfold search_empathy_questions_tool, query_index, asked_of, update_asked, asked_by.
  destruct (ready E); simpl; [|done]. run_monad.
  destruct (index_query E _ _) as [res|e]; simpl; [|done].
  destruct (pick_questions _ res ∅ []) as [seen questions]. simpl.
  destruct questions as [|q qs]; [|done].
  destruct res as [|m ms]; [done|].
  destruct (fallback_lines (take 3 (m :: ms))) as [[|l ls]|e]; done.
Qed.

Lemma asked_after_record (uid : string) (seen : gset string) (st : state)
    (rq : index_request) :
  asked_by {| recommended_activities_by_user := recommended_activities_by_user st;
              asked_questions_by_user :=
                update_set (cache_key uid) seen
                  (touch (cache_key uid) (asked_questions_by_user st));
              queries := queries st ++ [rq] |} uid =
  asked_by st uid ∪ seen.
Proof. unfold asked_by. simpl. by rewrite lookup_update_set. Qed.

Lemma asked_after_touch (uid : string) (st : state) (rq : index_request) :
  asked_by {| recommended_activities_by_user := recommended_activities_by_user st;
              asked_questions_by_user :=
                touch (cache_key uid) (asked_questions_by_user st);
              queries := queries st ++ [rq] |} uid =
  asked_by st uid.
Proof. unfold asked_by. simpl. by rewrite lookup_touch. Qed.

(** Only questions that passed the filter enter the user's set. *)
Lemma asked_only_fresh (ctx : string) (depth : Z) (uid : string)
    (recent : option (list string)) (st : state) (q : string) :
  q ∈ asked_by (search_empathy_questions_tool E ctx depth uid recent st).2 uid →
  q ∈ asked_by st uid ∨
  ∃ res m meta,
    index_query E (length (queries st)) (question_request E ctx depth recent) = Ok res ∧
    m ∈ res ∧ m_metadata m = Some meta ∧ question_text meta = Some q ∧
    q ∉ asked_by st uid.
Proof.
  rewrite search_empathy_questions_tool_run.
  destruct (ready E); [|by left]. simpl.
  destruct (index_query E _ _) as [res|e] eqn:Hq; [|by left].
  destruct (pick_questions_picks (asked_by st uid) res ∅ []) as (picks & Heq & Hfrom).
  rewrite Heq. simpl.
  assert (Hrec : q ∈ asked_by st uid ∪ (list_to_set picks.*1 ∪ ∅) →
            q ∈ asked_by st uid ∨
            ∃ res' m meta, Ok res = Ok res' ∧ m ∈ res' ∧ m_metadata m = Some meta ∧
                           question_text meta = Some q ∧ q ∉ asked_by st uid).
  { intros [Hin|Hin]%elem_of_union; [by left|]. right.
    assert (Hp : q ∈ picks.*1) by set_solver.
    destruct (Hfrom q Hp) as (Hfresh & m & meta & Hm & Hmeta & Htext).
    exists res, m, meta. done. }
  destruct (map _ picks) as [|l ls]; [destruct res as [|m ms]|].
  - cbn [snd]. rewrite asked_after_record. exact Hrec.
  - destruct (fallback_lines _) as [qs|e]; cbn [snd].
    + rewrite asked_after_record. exact Hrec.
    + rewrite asked_after_touch. by left.
  - cbn [snd]. rewrite asked_after_record. exact Hrec.
Qed.

(** Only questions that passed the freshness filter are recorded in
    the user's set of asked questions.  When the index returns candidates
    and every one of them carries a question the user was already asked, the
    tool prints the first three candidates as they came and leaves the
    user's set as it was; if the index answers the next call with the same
    candidates, that call prints the same lines again. *)
Theorem empathy_fallback_is_not_recorded :
  (∀ ctx depth uid recent st q,
     q ∈ asked_by (search_empathy_questions_tool E ctx depth uid recent st).2 uid →
     q ∈ asked_by st uid ∨
     ∃ res m meta,
       index_query E (length (queries st)) (question_request E ctx depth recent) = Ok res ∧
       m ∈ res ∧ m_metadata m = Some meta ∧ question_text meta = Some q ∧
       q ∉ asked_by st uid) ∧
  (∀ ctx depth uid recent st res,
     ready E = true →
     index_query E (length (queries st)) (question_request E ctx depth recent) = Ok res →
     res ≠ [] →
     Forall (λ m, ∃ meta q, m_metadata m = Some meta ∧ question_text meta = Some q ∧
                            q ∈ asked_by st uid) res →
     let run1 := search_empathy_questions_tool E ctx depth uid recent st in
     let lines := map repeated_line (take 3 res) in
     run1.1 = Ok (join newline lines) ∧
     asked_by run1.2 uid = asked_by st uid ∧
     (index_query E (length (queries run1.2)) (question_request E ctx depth recent) = Ok res →
      (search_empathy_questions_tool E ctx depth uid recent run1.2).1 =
      Ok (join newline lines))).
Proof.
  split; [apply asked_only_fresh|].
  assert (Hone : ∀ ctx depth uid recent st res,
            ready E = true →
            index_query E (length (queries st)) (question_request E ctx depth recent) = Ok res →
            res ≠ [] →
            Forall (λ m, ∃ meta q, m_metadata m = Some meta ∧ question_text meta = Some q ∧
                                   q ∈ asked_by st uid) res →
            (search_empathy_questions_tool E ctx depth uid recent st).1 =
              Ok (join newline (map repeated_line (take 3 res))) ∧
            asked_by (search_empathy_questions_tool E ctx depth uid recent st).2 uid =
              asked_by st uid).
  { intros ctx depth uid recent st res Hready Hq Hne Hall.
    rewrite search_empathy_questions_tool_run, Hready. simpl. rewrite Hq.
    rewrite (pick_questions_all_seen _ _ Hall). simpl.
    destruct res as [|m ms]; [done|].
    rewrite fallback_lines_with_metadata.
    - cbn [fst snd]. split.
      + cbn [take map]. destruct (take 2 ms); done.
      + rewrite asked_after_record. set_solver.
    - apply Forall_take. eapply Forall_impl; [exact Hall|].
      intros m' (meta & q & -> & _). eauto. }
  intros ctx depth uid recent st res Hready Hq Hne Hall run1 lines.
  destruct (Hone ctx depth uid recent st res Hready Hq Hne Hall) as [Hout Hsame].
  fold run1 in Hout, Hsame. split; [exact Hout|]. split; [exact Hsame|].
  intros Hq2.
  apply (Hone ctx depth uid recent run1.2 res Hready Hq2 Hne).
  rewrite Hsame. exact Hall.
Qed.

End Tools.

Lemma recommend_twice_never_repeats_witness :
  let run1 := recommend_activities_tool Scenario.activity_env "지루함" "거동 가능" "u1"
                Scenario.fresh_caches in
  let run2 := recommend_activities_tool Scenario.activity_env "지루함" "거동 가능" "u1" run1.2 in
  run1.1 = Ok (join newline ["- 산책 (기대효과: 즐거움)"; "- 화분 가꾸기 (기대효과: 즐거움)"]) ∧
  run2.1 = Ok NOTHING_NEW.
Proof.
  intros run1 run2.
  destruct (recommend_twice_never_repeats Scenario.activity_env "지루함" "거동 가능" "u1"
              Scenario.fresh_caches) as ([Hout1 _] & _ & _ & _ & _ & Hnothing).
  split.
  - exact Hout1.
  - apply (Hnothing [Scenario.activity "산책"; Scenario.activity "화분 가꾸기"]).
    + reflexivity.
    + reflexivity.
    + vm_compute. reflexivity.
Defined.

Lemma empathy_fallback_is_not_recorded_witness :
  let line := "- 요즘 가장 마음이 쓰이는 일은 무엇인가요? (의도: 탐색)" in
  let run1 := search_empathy_questions_tool Scenario.question_env "외로움" 1 "u1" None
                Scenario.already_asked in
  run1.1 = Ok line ∧
  asked_by run1.2 "u1" = asked_by Scenario.already_asked "u1" ∧
  (search_empathy_questions_tool Scenario.question_env "외로움" 1 "u1" None run1.2).1 = Ok line.
Proof.
  intros line run1.
  destruct (empathy_fallback_is_not_recorded Scenario.question_env) as [_ Hfallback].
  destruct (Hfallback "외로움" 1%Z "u1" None Scenario.already_asked [Scenario.one_question])
    as (Hout & Hsame & Hagain).
  - reflexivity.
  - reflexivity.
  - discriminate.
  - constructor; [|constructor]. eexists _, _. split; [reflexivity|]. split; [reflexivity|].
    vm_compute. set_solver.
  - split; [exact Hout|]. split; [exact Hsame|]. apply Hagain. reflexivity.
Defined.


End RecommendBaFacts.

(** * Properties of the information tools *)

Module SearchInfoFacts.

Import SearchInfo.

Section Tools.

Variable E : env.

(** The containment pass collects the contained regions in list order and
    stops at the [n]-th. *)
Lemma containment_pass_collects (user_input : string) (region_list : list string)
    (n : nat) :
  ∀ matched, length matched < n →
    containment_pass user_input region_list n matched =
    let all := matched ++ contained_regions user_input region_list in
    if bool_decide (n ≤ length all) then inl (take n all) else inr all.
Proof.
  induction region_list as [|region rest IH]; intros matched Hlen; simpl.
  - rewrite app_nil_r. rewrite bool_decide_eq_false_2; [done|lia].
  - destruct (contains user_input region || contains region user_input); simpl.
    + case_bool_decide as Hfull.
      * rewrite length_app in Hfull. simpl in Hfull.
        assert (Hn : length (matched ++ [region]) = n)
          by (rewrite length_app; simpl; lia).
        rewrite (cons_middle region matched (contained_regions user_input rest)).
        rewrite app_assoc.
        rewrite bool_decide_eq_true_2; [|rewrite length_app; lia].
        f_equal. rewrite <- Hn. by rewrite take_app_length.
      * rewrite IH; [|lia]. simpl.
        by rewrite <- app_assoc.
    + by apply IH.
Qed.

(** Resolution in two passes: the contained regions, capped at [n], when
    there are any; the close matches otherwise. *)
Lemma find_matching_regions_two_passes (user_input : string)
    (region_list : list string) (n : nat) :
  0 < n →
  find_matching_regions E user_input region_list n =
  match contained_regions user_input region_list with
  | [] =>
      match get_close_matches E user_input region_list n with
      | [] => None
      | m :: ms => Some (m :: ms)
      end
  | c :: cs => Some (take n (c :: cs))
  end.
Proof.
  intros Hn. unfold find_matching_regions.
  rewrite containment_pass_collects; [|simpl; lia]. simpl.
  destruct (contained_regions user_input region_list) as [|c cs] eqn:Hc.
  - rewrite bool_decide_eq_false_2; [|simpl; lia].
    by destruct (get_close_matches E user_input region_list n).
  - case_bool_decide; [done|].
    rewrite firstn_all2; [done|lia].
Qed.

Lemma run_search_run (rq : search_request) (st : state) :
  run_search E rq st =
  (similarity_search E (length (searches st)) rq, {| searches := searches st ++ [rq] |}).
Proof. reflexivity. Qed.


(** *** The facility search *)

(** The loop issues one request per region, whatever the earlier ones
    returned, and collects the answers of those that did not raise. *)
Lemma search_each_region_run (q : string) (budget : nat) (all : list string)
    (regions : list (option string)) :
  ∀ (results_list : list document) (st : state),
    search_each_region E q budget all regions results_list st =
    let requests := map (facility_request E q budget all) regions in
    (Ok (results_list ++ answers E (length (searches st)) requests),
     {| searches := searches st ++ requests |}).
Proof.
  induction regions as [|rgn rest IH]; intros results_list st; simpl.
  - rewrite !app_nil_r. by destruct st.
  - rewrite bind_unfold. unfold try_except. rewrite bind_unfold, run_search_run.
    destruct (similarity_search E (length (searches st)) _) as [ds|e]; simpl.
    + rewrite IH. simpl. rewrite length_app. simpl. rewrite Nat.add_1_r.
      by rewrite <- !app_assoc.
    + rewrite IH. simpl. rewrite length_app. simpl. rewrite Nat.add_1_r.
      by rewrite <- !app_assoc.
Qed.

(** The merge keeps, in order, the first document of every content. *)
Lemma unique_by_content_firsts (results_list : list document) :
  ∀ (unique_results : list document) (seen_content : gset string),
    (∀ x, x ∈ seen_content ↔ x ∈ page_content <$> unique_results) →
    NoDup (page_content <$> unique_results) →
    ∃ kept,
      unique_by_content results_list unique_results seen_content = unique_results ++ kept ∧
      sublist kept results_list ∧
      NoDup (page_content <$> (unique_results ++ kept)) ∧
      (∀ pre d post, results_list = pre ++ d :: post →
         page_content d ∉ page_content <$> pre →
         page_content d ∉ seen_content → d ∈ kept).
Proof.
  induction results_list as [|doc rest IH]; intros unique_results seen_content Hseen Hnd;
    simpl.
  - exists []. rewrite app_nil_r. split; [done|]. split; [done|]. split; [done|].
    intros pre d post Heq. by destruct pre.
  - case_bool_decide as Hin.
    + destruct (IH unique_results seen_content Hseen Hnd) as (kept & Heq & Hsub & Hnd' & Hfirst).
      exists kept. split; [done|]. split; [by apply sublist_cons|]. split; [done|].
      intros pre d post Hl Hpre Hd. destruct pre as [|p pre']; simpl in Hl.
      * injection Hl as <- _. done.
      * injection Hl as <- Hl. apply (Hfirst pre' d post Hl); [|done].
        intros Hc. apply Hpre. rewrite fmap_cons. by right.
    + assert (Hseen' : ∀ x, x ∈ {[page_content doc]} ∪ seen_content ↔
                            x ∈ page_content <$> (unique_results ++ [doc])).
      { intros x. rewrite fmap_app, elem_of_app, elem_of_union, <- Hseen. simpl.
        rewrite list_elem_of_singleton, elem_of_singleton. tauto. }
      assert (Hnd2 : NoDup (page_content <$> (unique_results ++ [doc]))).
      { rewrite fmap_app. apply NoDup_app. split; [done|]. split.
        - intros x Hx Hx'. simpl in Hx'. apply list_elem_of_singleton in Hx'. subst.
          apply Hin. by apply Hseen.
        - simpl. apply NoDup_singleton. }
      destruct (IH (unique_results ++ [doc]) ({[page_content doc]} ∪ seen_content)
                   Hseen' Hnd2) as (kept & Heq & Hsub & Hnd' & Hfirst).
      exists (doc :: kept). rewrite Heq, <- app_assoc. simpl.
      split; [done|]. split; [by apply sublist_skip|].
      split; [by rewrite <- app_assoc in Hnd'|].
      intros pre d post Hl Hpre Hd. destruct pre as [|p pre']; simpl in Hl.
      * injection Hl as <- _. by left.
      * injection Hl as <- Hl. right. apply (Hfirst pre' d post Hl).
        -- intros Hc. apply Hpre. rewrite fmap_cons. by right.
        -- intros [Hc|Hc]%elem_of_union; [|done].
           apply elem_of_singleton in Hc. apply Hpre. rewrite fmap_cons, Hc. by left.
Qed.

(** The accumulator loop of the merge computes the first-occurrence
    filter. *)
Lemma unique_by_content_filter (results_list : list document) :
  ∀ (earlier unique_results : list document) (seen_content : gset string),
    (∀ x, x ∈ seen_content ↔ x ∈ page_content <$> earlier) →
    unique_by_content results_list unique_results seen_content =
    unique_results ++ first_occurrences_after earlier results_list.
Proof.
  induction results_list as [|doc rest IH]; intros earlier unique_results seen_content Hseen;
    simpl.
  - by rewrite app_nil_r.
  - assert (Hiff : page_content doc ∈ seen_content ↔
                   page_content doc ∈ page_content <$> earlier) by apply Hseen.
    case_bool_decide as Hin.
    + rewrite bool_decide_eq_true_2 by by apply Hiff.
      rewrite (IH (earlier ++ [doc]) unique_results seen_content); [done|].
      intros x. rewrite fmap_app, elem_of_app, <- Hseen. simpl.
      rewrite list_elem_of_singleton. split; [tauto|]. intros [Hx| ->]; done.
    + rewrite bool_decide_eq_false_2 by (by rewrite <- Hiff).
      rewrite (IH (earlier ++ [doc]) (unique_results ++ [doc])
                  ({[page_content doc]} ∪ seen_content)).
      * by rewrite <- app_assoc.
      * intros x. rewrite fmap_app, elem_of_app, elem_of_union, <- Hseen. simpl.
        rewrite list_elem_of_singleton, elem_of_singleton. tauto.
Qed.

(** C7. A facility search over a list of one to three regions issues one
    sub-search per region, in the order of the list, each in the facilities
    namespace, for the same query, with the budget [10 // n] (3 for three
    regions) and with a filter computed from its own region alone: none for a
    missing or unmatched region, equality for one matching canonical region,
    membership for several.  A sub-search that raises only contributes
    nothing.  The merged output is the first-occurrence filter of the found
    documents: a document is kept exactly when no document found before it
    has the same content.  So it has no two documents of the same content,
    it keeps the order in which the documents were found, and it holds the
    first document of every content. *)
Theorem facilities_budget_and_merge (q : string) (region : option string)
    (rs : list (option string)) (st : state) :
  1 ≤ length rs ≤ 3 →
  let budget := 10 `div` length rs in
  let region_filter (rgn : option string) : gmap string filter_value :=
    match given rgn with
    | None => ∅
    | Some r =>
        match find_matching_regions E r (all_regions E) 100 with
        | None | Some [] => ∅
        | Some [one] => {[ "region" := FEq one ]}
        | Some several => {[ "region" := FIn several ]}
        end
    end in
  let requests :=
    map (λ rgn, {| namespace := "funeral_facilities"; query := q; k := budget;
                   filter := region_filter rgn |}) rs in
  let found := answers E (length (searches st)) requests in
  let run := search_funeral_facilities E q region (Some rs) st in
  if ready E then
    (length rs = 3 → budget = 3) ∧
    Forall (λ rq, k rq = budget) requests ∧
    searches run.2 = searches st ++ requests ∧
    ∃ out,
      run.1 = Ok (Documents out) ∧
      out = first_occurrences found ∧
      NoDup (page_content <$> out) ∧
      sublist out found ∧
      (∀ pre d post, found = pre ++ d :: post →
         page_content d ∉ page_content <$> pre → d ∈ out)
  else run = (Ok (Text DB_ERROR), st).
Proof.
  intros Hn budget region_filter requests found run.
  assert (Hpos : ∀ (X Y : M state output),
            match length rs with 0 => X | S _ => Y end = Y).
  { intros X Y. destruct (length rs); [lia|done]. }
  assert (Hreq : map (facility_request E q budget (all_regions E)) rs = requests).
  { unfold requests. apply map_ext. intros rgn.
    unfold facility_request, facility_filter, region_filter, constrain_region.
    reflexivity. }
  unfold run, search_funeral_facilities.
  destruct (ready E); [|done]. cbn [negb]. rewrite Hpos.
  rewrite bind_unfold, search_each_region_run.
  fold budget. rewrite Hreq. cbn [app]. fold found. cbn [mret M_ret fst snd searches].
  split; [|split; [|split; [done|]]].
  - intros H3. unfold budget. rewrite H3. reflexivity.
  - unfold requests. apply Forall_map, Forall_forall. done.
  - destruct (unique_by_content_firsts found [] ∅) as (kept & Heq & Hsub & Hnd & Hfirst).
    + intros x. simpl. split; intros Hx; [by apply elem_of_empty in Hx|by apply elem_of_nil in Hx].
    + constructor.
    + exists kept. simpl in Heq, Hnd. rewrite Heq.
      split; [done|]. split.
      { rewrite <- Heq. rewrite (unique_by_content_filter found [] [] ∅); [done|].
        intros x. simpl. split; intros Hx;
          [by apply elem_of_empty in Hx|by apply elem_of_nil in Hx]. }
      split; [done|]. split; [done|].
      intros pre d post Hf Hpre. apply (Hfirst pre d post Hf Hpre). set_solver.
Qed.

End Tools.

Lemma facilities_budget_and_merge_witness :
  let regions := [Some "경기도 의왕시"; Some "경기도 안양시"; Some "경기도 군포시"] in
  let run := search_funeral_facilities Scenario.info_env "천주교 납골당" None (Some regions)
               Scenario.no_searches in
  Forall (λ rq, k rq = 3) (searches run.2) ∧ length (searches run.2) = 3 ∧
  ∃ out, run.1 = Ok (Documents out) ∧ NoDup (page_content <$> out).
Proof.
  intros regions run.
  assert (Hn : 1 ≤ length regions ≤ 3) by (simpl; lia).
  pose proof (facilities_budget_and_merge Scenario.info_env "천주교 납골당" None regions
                Scenario.no_searches Hn) as H.
  cbn [Scenario.info_env ready] in H.
  destruct H as (_ & Hbudget & Hlog & out & Hout & _ & Hnd & _).
  fold run in Hlog, Hout. rewrite Hlog. cbn [Scenario.no_searches searches app].
  split; [exact Hbudget|]. split; [by rewrite length_map|].
  exists out. split; [exact Hout|exact Hnd].
Defined.



End SearchInfoFacts.

(** * Further properties of the session store *)

Module SessionManagerExtra.

Import SessionManager.

Lemma write_file_run (fs : directory) (uid : string) (f : session_file) :
  write_file uid f fs =
  match file_of fs uid with
  | Some path => Some {| contents := <[path := f]> (contents fs); file_of := file_of fs |}
  | None => None
  end.
Proof. reflexivity. Qed.

Lemma load_inserted (fs : directory) (path reader : string) u lv p h :
  file_of fs reader = Some path →
  load_session_from {| contents := <[path := Json u lv (Some p) (Some h)]> (contents fs);
                       file_of := file_of fs |} reader =
  {| user_id := u; last_visit := lv; user_profile := p; conversation_history := h |}.
Proof.
  intros Hf. unfold load_session_from, lookup, directory_lookup. cbn [file_of contents].
  by rewrite Hf, lookup_insert_eq.
Qed.

Lemma load_other (fs : directory) (path other : string) f :
  file_of fs other ≠ Some path →
  load_session_from {| contents := <[path := f]> (contents fs); file_of := file_of fs |} other =
  load_session_from fs other.
Proof.
  intros Hne. unfold load_session_from, lookup, directory_lookup. cbn [file_of contents].
  destruct (file_of fs other) as [q|]; [|done].
  rewrite lookup_insert_ne; [done|]. congruence.
Qed.

Lemma file_of_wrote (fs : directory) (uid : string) (f : session_file) :
  file_of (default fs (write_file uid f fs)) = file_of fs.
Proof. rewrite write_file_run. by destruct (file_of fs uid). Qed.

Lemma load_wrote_same (fs : directory) (uid reader path : string) u lv p h :
  file_of fs uid = Some path → file_of fs reader = Some path →
  load_session_from (default fs (write_file uid (Json u lv (Some p) (Some h)) fs)) reader =
  {| user_id := u; last_visit := lv; user_profile := p; conversation_history := h |}.
Proof.
  intros Hu Hr. rewrite write_file_run, Hu. cbn [default from_option id].
  by apply load_inserted.
Qed.

Lemma load_wrote_other (fs : directory) (uid other path : string) f :
  file_of fs uid = Some path → file_of fs other ≠ Some path →
  load_session_from (default fs (write_file uid f fs)) other = load_session_from fs other.
Proof.
  intros Hu Hne. rewrite write_file_run, Hu. cbn [default from_option id].
  by apply load_other.
Qed.

Lemma wrote_none (fs : directory) (uid : string) f :
  file_of fs uid = None → default fs (write_file uid f fs) = fs.
Proof. intros Hu. by rewrite write_file_run, Hu. Qed.

Lemma load_no_file (fs : directory) (uid : string) :
  file_of fs uid = None →
  load_session_from fs uid =
  {| user_id := Some uid; last_visit := None;
     user_profile := default_new_profile; conversation_history := [] |}.
Proof.
  intros Hf. unfold load_session_from, lookup, directory_lookup. by rewrite Hf.
Qed.

(** X8. Normalisation only ever rewrites the four canonical fields: any
    other key reads as in the raw profile when it is there, as in the stored
    one otherwise.  No key is lost. *)
Theorem normalize_profile_other_keys (p current : profile) (key : string) :
  (key ∉ ["name"; "mobility"; "activity_range"; "emotion"] →
   _normalize_profile p current !! key = (p ∪ current) !! key) ∧
  (is_Some ((p ∪ current) !! key) → is_Some (_normalize_profile p current !! key)).
Proof.
  unfold _normalize_profile.
  rewrite !SessionManagerFacts.lookup_set_if_truthy. split.
  - intros Hkey.
    repeat (case_bool_decide; [subst; exfalso; apply Hkey; set_solver|]).
    by rewrite !andb_false_r.
  - intros Hsome. repeat (destruct (truthy _ && bool_decide _); [eauto|]). done.
Qed.

(** X9. The name field: a truthy raw name wins, else a truthy answer A1,
    else the merged value is kept, so that a raw profile carrying an empty
    name erases the stored one. *)
Theorem normalize_profile_name (p current : profile) :
  let explicit := dict_get p "name" in
  let answer := dict_get p "A1" in
  let normalized := _normalize_profile p current !! "name" in
  (truthy explicit = true → normalized = Some explicit) ∧
  (truthy explicit = false → truthy answer = true → normalized = Some answer) ∧
  (truthy explicit = false → truthy answer = false →
     normalized = (p ∪ current) !! "name") ∧
  (p !! "name" = Some (VStr "") → p !! "A1" = None → normalized = Some (VStr "")).
Proof.
  intros explicit answer normalized. unfold normalized, _normalize_profile.
  rewrite !SessionManagerFacts.lookup_set_if_truthy.
  rewrite !(bool_decide_eq_false_2 (_ = "name")) by discriminate.
  rewrite !andb_false_r, bool_decide_eq_true_2, andb_true_r by done.
  fold explicit answer. unfold py_or.
  split; [intros H1; rewrite H1; cbn; by rewrite H1|].
  split; [intros H1 H2; rewrite H1; cbn; by rewrite H2|].
  split; [intros H1 H2; rewrite H1; cbn; by rewrite H2|].
  intros Hname Ha1. unfold explicit, answer, dict_get. rewrite Hname, Ha1. simpl.
  by rewrite lookup_union, Hname, union_Some_l.
Qed.

(** X10. The checklist answers A2 and A4 fill both the mobility and the
    activity range when the raw profile gives neither field, with A2 taking
    precedence over A4. *)
Theorem normalize_profile_mobility_from_checklist (p current : profile) :
  truthy (dict_get p "mobility") = false →
  truthy (dict_get p "activity_range") = false →
  let a2 := dict_get p "A2" in
  let a4 := dict_get p "A4" in
  let normalized := _normalize_profile p current in
  (truthy a2 = true →
     normalized !! "mobility" = Some a2 ∧ normalized !! "activity_range" = Some a2) ∧
  (truthy a2 = false → truthy a4 = true →
     normalized !! "mobility" = Some a4 ∧ normalized !! "activity_range" = Some a4).
Proof.
  intros Hm Ha a2 a4 normalized. unfold normalized, _normalize_profile.
  rewrite !SessionManagerFacts.lookup_set_if_truthy.
  rewrite !(bool_decide_eq_false_2 (_ = "mobility")) by discriminate.
  rewrite !(bool_decide_eq_false_2 (_ = "activity_range")) by discriminate.
  rewrite !andb_false_r, !bool_decide_eq_true_2, !andb_true_r by done.
  unfold py_or. rewrite Hm, Ha. fold a2 a4.
  split; [intros H1; rewrite H1; cbn; by rewrite H1|].
  intros H1 H2. rewrite H1. cbn. by rewrite H2.
Qed.

Section Store.

Variable c : clock.

(** X1. [save_session] never raises.  When the path of the user id can be
    opened, what it writes is what [load_session] reads back, under that id
    and under every id that names the same file, and the sessions kept in
    other files are not affected.  When the path cannot be opened the failure
    is swallowed: nothing is stored and the user still loads as a fresh
    session. *)
Theorem save_then_load (uid : string) (data : session) (st : store) :
  let st' := (save_session uid data st).2 in
  (save_session uid data st).1 = Ok () ∧
  file_of (files st') = file_of (files st) ∧
  clock_reads st' = clock_reads st ∧
  match file_of (files st) uid with
  | Some path =>
      (∀ reader, file_of (files st) reader = Some path →
         (load_session reader st').1 = Ok data) ∧
      (∀ other, file_of (files st) other ≠ Some path →
         load_session_from (files st') other = load_session_from (files st) other)
  | None =>
      st' = st ∧
      (load_session uid st').1 =
        Ok {| user_id := Some uid; last_visit := None;
              user_profile := default_new_profile; conversation_history := [] |}
  end.
Proof.
  unfold save_session, load_session. run_monad. rewrite write_file_run.
  destruct (file_of (files st) uid) as [path|] eqn:Hpath; simpl.
  - split; [done|]. split; [done|]. split; [done|]. split.
    + intros reader Hr. rewrite load_inserted by done. by destruct data.
    + intros other Hne. by apply load_other.
  - split; [done|]. split; [done|]. split; [done|]. split; [done|].
    by rewrite load_no_file.
Qed.

(** X2. [add_message] reads the clock once and never raises.  When the path
    of the user id can be opened it appends exactly one entry, stamped with
    the time read, at the end of the user's history; profile and last visit
    stay, and so do the sessions kept in other files.  When the path cannot
    be opened the message is lost and the files are as before. *)
Theorem add_message_appends (uid role content : string) (st : store) :
  let st' := (add_message c uid role content st).2 in
  let before := load_session_from (files st) uid in
  let after := load_session_from (files st') uid in
  (add_message c uid role content st).1 = Ok () ∧
  clock_reads st' = S (clock_reads st) ∧
  match file_of (files st) uid with
  | Some path =>
      conversation_history after =
        conversation_history before ++
        [HMsg (isoformat c (now c (clock_reads st))) role content] ∧
      user_profile after = user_profile before ∧
      last_visit after = last_visit before ∧
      (∀ other, file_of (files st) other ≠ Some path →
         load_session_from (files st') other = load_session_from (files st) other)
  | None => files st' = files st
  end.
Proof.
  unfold add_message, load_session, datetime_now, save_session, with_history. run_monad.
  rewrite write_file_run.
  destruct (file_of (files st) uid) as [path|] eqn:Hpath; simpl.
  - split; [done|]. split; [done|]. rewrite !load_inserted by done. simpl.
    split; [done|]. split; [done|]. split; [done|].
    intros other Hne. by apply load_other.
  - done.
Qed.

(** X3. [update_user_profile] never raises and reads no clock.  When the
    path of the user id can be opened it stores the normalised merge of the
    raw profile into the stored one and touches neither the history nor the
    last visit, nor any session kept in another file.  When the path cannot
    be opened the files are as before. *)
Theorem update_user_profile_keeps_history (uid : string) (p : profile) (st : store) :
  let st' := (update_user_profile uid p st).2 in
  let before := load_session_from (files st) uid in
  let after := load_session_from (files st') uid in
  (update_user_profile uid p st).1 = Ok () ∧
  clock_reads st' = clock_reads st ∧
  match file_of (files st) uid with
  | Some path =>
      user_profile after = _normalize_profile p (user_profile before) ∧
      conversation_history after = conversation_history before ∧
      last_visit after = last_visit before ∧
      (∀ other, file_of (files st) other ≠ Some path →
         load_session_from (files st') other = load_session_from (files st) other)
  | None => files st' = files st
  end.
Proof.
  unfold update_user_profile, load_session, save_session, with_profile. run_monad.
  rewrite write_file_run.
  destruct (file_of (files st) uid) as [path|] eqn:Hpath; simpl.
  - split; [done|]. split; [done|]. rewrite !load_inserted by done. simpl.
    split; [done|]. split; [done|]. split; [done|].
    intros other Hne. by apply load_other.
  - done.
Qed.

(** X4. [update_last_visit] reads the clock once and never raises.  When the
    path of the user id can be opened it replaces the last visit by the time
    read and keeps history and profile, and the sessions kept in other files.
    When the path cannot be opened the files are as before. *)
Theorem update_last_visit_stamps (uid : string) (st : store) :
  let st' := (update_last_visit c uid st).2 in
  let before := load_session_from (files st) uid in
  let after := load_session_from (files st') uid in
  (update_last_visit c uid st).1 = Ok () ∧
  clock_reads st' = S (clock_reads st) ∧
  match file_of (files st) uid with
  | Some path =>
      last_visit after = Some (isoformat c (now c (clock_reads st))) ∧
      conversation_history after = conversation_history before ∧
      user_profile after = user_profile before ∧
      (∀ other, file_of (files st) other ≠ Some path →
         load_session_from (files st') other = load_session_from (files st) other)
  | None => files st' = files st
  end.
Proof.
  unfold update_last_visit, load_session, datetime_now, save_session, with_last_visit.
  run_monad. rewrite write_file_run.
  destruct (file_of (files st) uid) as [path|] eqn:Hpath; simpl.
  - split; [done|]. split; [done|]. rewrite !load_inserted by done. simpl.
    split; [done|]. split; [done|]. split; [done|].
    intros other Hne. by apply load_other.
  - done.
Qed.

(** X5. [get_welcome_message] always returns a greeting and never writes:
    the session files are the same afterwards.  A stored last visit that the
    codec cannot parse gives the plain greeting. *)
Theorem get_welcome_message_only_reads (uid : string) (st : store) :
  (∃ text, (get_welcome_message c uid st).1 = Ok text) ∧
  files (get_welcome_message c uid st).2 = files st ∧
  (∀ lv, given (last_visit (load_session_from (files st) uid)) = Some lv →
     fromisoformat c lv = None →
     (get_welcome_message c uid st).1 =
     Ok (greeting_plain (welcome_title (load_session_from (files st) uid)))).
Proof.
  unfold get_welcome_message, load_session, datetime_now. run_monad.
  destruct (given (last_visit _)) as [lv|] eqn:Hlv; simpl.
  - destruct (fromisoformat c lv) as [last|] eqn:Hp; simpl.
    + split; [repeat case_match; eauto|]. split; [repeat case_match; done|].
      intros lv' Hlv' Hnone. injection Hlv' as <-. congruence.
    + split; [eauto|]. split; [done|]. done.
  - split; [eauto|]. split; [done|]. intros lv Hlv'. discriminate.
Qed.

(** X6. A user without a session file, or with one that cannot be read,
    loads as a fresh session with an empty history, and is greeted with the
    first-time greeting under the bare title. *)
Theorem unknown_user_is_greeted_first_time (uid : string) (st : store) :
  files st !! uid = None ∨ files st !! uid = Some Unreadable →
  conversation_history (load_session_from (files st) uid) = [] ∧
  last_visit (load_session_from (files st) uid) = None ∧
  get_welcome_message c uid st = (Ok "안녕하세요, 님 오늘은 좀 어떠신가요?", st).
Proof.
  intros Hfile.
  assert (Hload : load_session_from (files st) uid =
            {| user_id := Some uid; last_visit := None;
               user_profile := default_new_profile; conversation_history := [] |}).
  { unfold load_session_from. by destruct Hfile as [-> | ->]. }
  rewrite Hload. split; [done|]. split; [done|].
  unfold get_welcome_message, load_session. run_monad. rewrite Hload. simpl.
  by destruct st.
Qed.

(** X7. When the clock reads a time before the stored last visit, or two
    days or more after it, the greeting is the "long time" one. *)
Theorem greeting_outside_two_days (uid lv : string) (last : Z) (st : store) :
  given (last_visit (load_session_from (files st) uid)) = Some lv →
  fromisoformat c lv = Some last →
  (now c (clock_reads st) < last ∨ last + 2 * 86400000000 ≤ now c (clock_reads st))%Z →
  (get_welcome_message c uid st).1 =
  Ok (greeting_long_time (welcome_title (load_session_from (files st) uid))).
Proof.
  intros Hlv Hp Hrange.
  unfold get_welcome_message, load_session, datetime_now. run_monad.
  rewrite Hlv. simpl. rewrite Hp. unfold timedelta_days, usec_per_day.
  set (d := ((now c (clock_reads st) - last) `div` 86400000000)%Z).
  assert (Hd : (d < 0 ∨ 2 ≤ d)%Z).
  { unfold d. destruct Hrange as [Hneg|Hbig].
    - left. apply Z.div_lt_upper_bound; lia.
    - right. apply Z.div_le_lower_bound; lia. }
  destruct (Z.eqb_spec d 0); [lia|]. destruct (Z.eqb_spec d 1); [lia|]. done.
Qed.

End Store.

Lemma normalize_profile_mobility_from_checklist_witness :
  _normalize_profile {[ "A2" := VStr "집 안에서만 이동" ]} ∅ !! "mobility" =
    Some (VStr "집 안에서만 이동") ∧
  _normalize_profile {[ "A2" := VStr "집 안에서만 이동" ]} ∅ !! "activity_range" =
    Some (VStr "집 안에서만 이동").
Proof.
  assert (Hm : truthy (dict_get ({[ "A2" := VStr "집 안에서만 이동" ]} : profile) "mobility")
               = false) by (vm_compute; reflexivity).
  assert (Ha : truthy (dict_get ({[ "A2" := VStr "집 안에서만 이동" ]} : profile)
                         "activity_range") = false) by (vm_compute; reflexivity).
  destruct (normalize_profile_mobility_from_checklist
              {[ "A2" := VStr "집 안에서만 이동" ]} ∅ Hm Ha) as [Ha2 _].
  apply Ha2. vm_compute. reflexivity.
Defined.

Lemma save_then_load_witness :
  let data := {| user_id := Some "u1"; last_visit := Some "2024-01-01T00:00:00";
                 user_profile := ∅; conversation_history := [] |} in
  (load_session "u1" (save_session "./u1" data Scenario.one_user_directory).2).1 = Ok data ∧
  (save_session "team/u1" data Scenario.one_user_directory).2 = Scenario.one_user_directory.
Proof.
  intros data.
  pose proof (save_then_load "./u1" data Scenario.one_user_directory) as Hsame.
  pose proof (save_then_load "team/u1" data Scenario.one_user_directory) as Hlost.
  cbv zeta in Hsame, Hlost.
  change (file_of (files Scenario.one_user_directory) "./u1") with (Some "u1") in Hsame.
  change (file_of (files Scenario.one_user_directory) "team/u1") with (@None string) in Hlost.
  cbv iota in Hsame, Hlost.
  destruct Hsame as (_ & _ & _ & Hsame & _). destruct Hlost as (_ & _ & _ & Hlost & _).
  split; [apply Hsame; reflexivity|exact Hlost].
Defined.

Lemma add_message_appends_witness :
  conversation_history
    (load_session_from
       (files (add_message Scenario.fixed_clock "./u1" "user" "안녕하세요"
                 Scenario.one_user_directory).2) "u1") =
    [HMsg "2024-01-01T00:00:00" "user" "안녕하세요"] ∧
  files (add_message Scenario.fixed_clock "team/u1" "user" "안녕하세요"
           Scenario.one_user_directory).2 = files Scenario.one_user_directory.
Proof.
  pose proof (add_message_appends Scenario.fixed_clock "./u1" "user" "안녕하세요"
                Scenario.one_user_directory) as Hsame.
  pose proof (add_message_appends Scenario.fixed_clock "team/u1" "user" "안녕하세요"
                Scenario.one_user_directory) as Hlost.
  cbv zeta in Hsame, Hlost.
  change (file_of (files Scenario.one_user_directory) "./u1") with (Some "u1") in Hsame.
  change (file_of (files Scenario.one_user_directory) "team/u1") with (@None string) in Hlost.
  cbv iota in Hsame, Hlost.
  destruct Hsame as (_ & _ & Hsame & _). destruct Hlost as (_ & _ & Hlost).
  split; [|exact Hlost].
  etrans; [|etrans; [exact Hsame|]]; vm_compute; reflexivity.
Defined.

Lemma unknown_user_is_greeted_first_time_witness :
  get_welcome_message Scenario.fixed_clock "u1"
    {| files := ∅; clock_reads := 0 |} =
  (Ok "안녕하세요, 님 오늘은 좀 어떠신가요?", {| files := ∅; clock_reads := 0 |}).
Proof.
  apply (unknown_user_is_greeted_first_time Scenario.fixed_clock "u1"
           {| files := ∅; clock_reads := 0 |}).
  left. reflexivity.
Defined.

Lemma greeting_outside_two_days_witness :
  (get_welcome_message Scenario.three_days_clock "u1" Scenario.returning_user).1 =
  Ok "영희님 오랜만에 오셨네요!".
Proof.
  apply (greeting_outside_two_days Scenario.three_days_clock "u1" "2024-01-01T00:00:00" 0%Z
           Scenario.returning_user).
  - reflexivity.
  - reflexivity.
  - right. vm_compute. discriminate.
Defined.

End SessionManagerExtra.

(** * Further properties of the orchestrator *)

Module ConversationEngineExtra.

Import SessionManager ConversationEngine ConversationEngineFacts.

Lemma last8_length (h : list hist_item) : length (last8 h) ≤ 8.
Proof. unfold last8. rewrite length_drop. lia. Qed.

Lemma recent_context_lengths (items : list hist_item) :
  length (recent_context items).1 ≤ length (recent_context items).2 ∧
  length (recent_context items).2 ≤ length items ∧
  Forall (λ m, ∃ t, m = HumanMessage t ∨ m = AIMessage t []) (recent_context items).1.
Proof.
  induction items as [|[ts role content|] rest (IH1 & IH2 & IH3)]; simpl.
  - split; [lia|]. split; [lia|]. constructor.
  - destruct (recent_context rest) as [hm rt]. simpl in *.
    destruct (String.eqb role "user"); [|destruct (String.eqb role "assistant")]; simpl.
    + split; [lia|]. split; [lia|]. constructor; [eauto|done].
    + split; [lia|]. split; [lia|]. constructor; [eauto|done].
    + split; [lia|]. split; [lia|]. done.
  - split; [done|]. split; [lia|]. done.
Qed.

(** X11. The context built from the stored history holds at most eight
    texts and at most as many messages; every message is a human or an
    assistant message without tool calls. *)
Theorem recent_context_is_bounded (h : list hist_item) :
  let context := recent_context (last8 h) in
  length context.1 ≤ length context.2 ∧
  length context.2 ≤ 8 ∧
  Forall (λ m, ∃ t, m = HumanMessage t ∨ m = AIMessage t []) context.1.
Proof.
  intros context.
  destruct (recent_context_lengths (last8 h)) as (H1 & H2 & H3).
  pose proof (last8_length h). fold context in H1, H2, H3.
  split; [done|]. split; [lia|done].
Qed.

Section Engine.

Variable E : env.

Lemma add_message_run (uid role content : string) (st : store) :
  add_message (wall_clock E) uid role content st =
  let s := load_session_from (files st) uid in
  (Ok (),
   {| files :=
        default (files st)
          (write_file uid
             (Json (user_id s) (last_visit s) (Some (user_profile s))
                (Some (conversation_history s ++
                       [HMsg (isoformat (wall_clock E)
                                (now (wall_clock E) (clock_reads st)))
                             role content])))
             (files st));
      clock_reads := S (clock_reads st) |}).
Proof.
  unfold add_message, load_session, datetime_now, save_session, with_history. run_monad.
  by destruct (write_file _ _ _).
Qed.

Lemma update_last_visit_run (uid : string) (st : store) :
  update_last_visit (wall_clock E) uid st =
  let s := load_session_from (files st) uid in
  (Ok (),
   {| files :=
        default (files st)
          (write_file uid
             (Json (user_id s)
                (Some (isoformat (wall_clock E) (now (wall_clock E) (clock_reads st))))
                (Some (user_profile s))
                (Some (conversation_history s)))
             (files st));
      clock_reads := S (clock_reads st) |}).
Proof.
  unfold update_last_visit, load_session, datetime_now, save_session, with_last_visit.
  run_monad. by destruct (write_file _ _ _).
Qed.

(** X12. Right after [update_last_visit], and for as long as the clock has
    not moved more than thirty minutes ahead, no welcome is due, in any mode;
    this needs the codec to read back the time stamp it wrote. *)
Theorem no_welcome_within_cooldown (uid mode : string) (st : store) :
  let c := wall_clock E in
  let st1 := (update_last_visit c uid st).2 in
  fromisoformat c (isoformat c (now c (clock_reads st))) = Some (now c (clock_reads st)) →
  (now c (clock_reads st1) - now c (clock_reads st) ≤ 30 * 60000000)%Z →
  (_should_show_welcome E (load_session_from (files st1) uid) mode st1).1 = Ok false.
Proof.
  intros c st1 Hcodec Hsoon. revert Hsoon. unfold st1, c.
  rewrite update_last_visit_run. cbn [snd files clock_reads].
  rewrite SessionManagerExtra.write_file_run.
  destruct (file_of (files st) uid) as [path|] eqn:Hpath; cbn [default from_option id]; intros Hsoon.
  - rewrite SessionManagerExtra.load_inserted by done.
    unfold _should_show_welcome. simpl.
    destruct (negb (String.eqb mode "chat")); [done|].
    fold c. destruct (nonempty (isoformat c (now c (clock_reads st)))); simpl; [|done].
    destruct (conversation_history _); [done|].
    rewrite Hcodec. unfold datetime_now. run_monad.
    rewrite bool_decide_eq_false_2; [done|].
    unfold WELCOME_COOLDOWN_MINUTES, usec_per_minute. fold c in Hsoon. lia.
  - rewrite SessionManagerExtra.load_no_file by done.
    unfold _should_show_welcome. simpl.
    by destruct (negb (String.eqb mode "chat")).
Qed.

(** *** Committing an info turn *)

Lemma blind_try_except {A} (c : M world A) (h : string → M world A) :
  session_blind c → (∀ e, session_blind (h e)) → session_blind (try_except c h).
Proof.
  intros Hc Hh w s. unfold try_except. rewrite Hc.
  destruct (c w) as [[a|e] w']; simpl; [done|apply Hh].
Qed.

Lemma blind_run_tool_calls (calls : list tool_call) : session_blind (run_tool_calls E calls).
Proof.
  induction calls as [|call rest IH]; simpl; [apply blind_ret|].
  apply blind_bind.
  - unfold run_tool_call. destruct (tools_by_name E !! tc_name call); [|apply blind_ret].
    apply blind_bind; [|intros; apply blind_ret].
    apply blind_try_except; [apply blind_on_tools|intros; apply blind_ret].
  - intros m. apply blind_bind; [apply IH|intros; apply blind_ret].
Qed.

Lemma blind_run_info_flow p text uid hist : session_blind (_run_info_flow E p text uid hist).
Proof.
  unfold _run_info_flow. apply blind_bind; [apply blind_llm_invoke|]. intros ai.
  destruct (tool_calls ai); [apply blind_ret|].
  apply blind_bind; [apply blind_run_tool_calls|]. intros ms.
  apply blind_bind; [apply blind_llm_invoke|intros; apply blind_ret].
Qed.

Lemma blind_keeps_sessions {A} (c : M world A) (w : world) :
  session_blind c → sessions (c w).2 = sessions w.
Proof.
  intros Hc. specialize (Hc w (sessions w)). rewrite with_sessions_same in Hc.
  rewrite Hc at 1. done.
Qed.

Lemma should_show_welcome_info (s : session) (st : store) :
  _should_show_welcome E s "info" st = (Ok false, st).
Proof. reflexivity. Qed.

(** The three writes that close a turn. *)
Lemma commit_turn_run (uid text response : string) (w : world) :
  let c := wall_clock E in
  let k := clock_reads (sessions w) in
  let s := load_session_from (files (sessions w)) uid in
  ∃ fs,
    (_ ← on_sessions (add_message c uid "user" text);
     _ ← on_sessions (add_message c uid "assistant" response);
     _ ← on_sessions (update_last_visit c uid);
     mret response) w =
    (Ok response, with_sessions {| files := fs; clock_reads := S (S (S k)) |} w) ∧
    match file_of (files (sessions w)) uid with
    | Some path =>
        load_session_from fs uid =
          {| user_id := user_id s;
             last_visit := Some (isoformat c (now c (S (S k))));
             user_profile := user_profile s;
             conversation_history :=
               conversation_history s ++
               [HMsg (isoformat c (now c k)) "user" text;
                HMsg (isoformat c (now c (S k))) "assistant" response] |} ∧
        (∀ other, file_of (files (sessions w)) other ≠ Some path →
           load_session_from fs other = load_session_from (files (sessions w)) other)
    | None => fs = files (sessions w)
    end.
Proof.
  intros c k s. eexists. split.
  - rewrite bind_unfold, on_sessions_run. unfold c. rewrite add_message_run.
    cbn [fst snd].
    rewrite bind_unfold, on_sessions_run, add_message_run. cbn [fst snd sessions with_sessions].
    rewrite bind_unfold, on_sessions_run, update_last_visit_run.
    cbn [fst snd sessions with_sessions clock_reads files llm_calls tool_modules].
    reflexivity.
  - cbn [files clock_reads].
    destruct (file_of (files (sessions w)) uid) as [path|] eqn:Hpath.
    + split.
      * rewrite !(SessionManagerExtra.load_wrote_same _ uid uid path)
          by (by rewrite ?SessionManagerExtra.file_of_wrote).
        cbn. by rewrite <- app_assoc.
      * intros other Hne.
        by rewrite !(SessionManagerExtra.load_wrote_other _ uid other path)
          by (by rewrite ?SessionManagerExtra.file_of_wrote).
    + by rewrite !SessionManagerExtra.wrote_none
        by (by rewrite ?SessionManagerExtra.file_of_wrote).
Qed.

(** X13. An info turn whose flow returns a text returns that text, with no
    greeting added, and commits the turn with three successive clock reads.
    When the path of the user id can be opened, the user's history grows by
    the user text and the reply, in that order and stamped by the first two
    reads, the third becomes the last visit, and the profile and the sessions
    kept in other files stay as they were.  When the path cannot be opened
    the three writes are lost and the files are as before. *)
Theorem info_turn_commits (uid text r : string) (w w1 : world) :
  let c := wall_clock E in
  let k := clock_reads (sessions w) in
  let s := load_session_from (files (sessions w)) uid in
  let hist := (recent_context (last8 (conversation_history s))).1 in
  _run_info_flow E (user_profile s) text uid hist w = (Ok r, w1) →
  let out := process_user_message E uid text "info" w in
  let after := load_session_from (files (sessions out.2)) uid in
  out.1 = Ok r ∧
  llm_calls out.2 = llm_calls w1 ∧ tool_modules out.2 = tool_modules w1 ∧
  clock_reads (sessions out.2) = S (S (S k)) ∧
  match file_of (files (sessions w)) uid with
  | Some path =>
      conversation_history after =
        conversation_history s ++
        [HMsg (isoformat c (now c k)) "user" text;
         HMsg (isoformat c (now c (S k))) "assistant" r] ∧
      last_visit after = Some (isoformat c (now c (S (S k)))) ∧
      user_profile after = user_profile s ∧
      (∀ other, file_of (files (sessions w)) other ≠ Some path →
         load_session_from (files (sessions out.2)) other =
         load_session_from (files (sessions w)) other)
  | None => files (sessions out.2) = files (sessions w)
  end.
Proof.
  intros c k s hist Hflow out after.
  assert (Hkeep : sessions w1 = sessions w).
  { pose proof (blind_keeps_sessions _ w (blind_run_info_flow (user_profile s) text uid hist))
      as H. by rewrite Hflow in H. }
  destruct (commit_turn_run uid text r w1) as (fs & Hcommit & Hload).
  rewrite Hkeep in Hload, Hcommit. fold c k s in Hload, Hcommit.
  assert (Hout : out = (Ok r, with_sessions {| files := fs; clock_reads := S (S (S k)) |} w1)).
  { unfold out, process_user_message.
    rewrite bind_unfold, on_sessions_run, load_session_run.
    cbn [fst snd]. rewrite with_sessions_same. fold s.
    rewrite bind_unfold, on_sessions_run, should_show_welcome_info.
    cbn [fst snd]. rewrite with_sessions_same. rewrite bind_unfold.
    cbn [mret M_ret].
    fold hist. destruct (recent_context (last8 (conversation_history s)))
      as [history_messages texts] eqn:Hctx.
    unfold hist in Hflow. cbn [fst] in Hflow.
    cbn [String.eqb Ascii.eqb Bool.eqb].
    rewrite bind_unfold, Hflow. exact Hcommit. }
  unfold after. rewrite Hout. cbn [fst snd sessions with_sessions files clock_reads].
  split; [done|]. split; [done|]. split; [done|]. split; [done|].
  destruct (file_of (files (sessions w)) uid) as [path|]; [|done].
  destruct Hload as [Hload Hother]. rewrite Hload. cbn.
  repeat (split; [done|]). exact Hother.
Qed.

(** X14. An info turn whose flow raises writes nothing: the exception
    leaves [process_user_message] and the session files hold neither the user
    message nor a reply. *)
Theorem info_turn_fault_commits_nothing (uid text e : string) (w w1 : world) :
  let s := load_session_from (files (sessions w)) uid in
  let hist := (recent_context (last8 (conversation_history s))).1 in
  _run_info_flow E (user_profile s) text uid hist w = (Raise e, w1) →
  process_user_message E uid text "info" w = (Raise e, w1) ∧
  sessions w1 = sessions w.
Proof.
  intros s hist Hflow.
  assert (Hkeep : sessions w1 = sessions w).
  { pose proof (blind_keeps_sessions _ w (blind_run_info_flow (user_profile s) text uid hist))
      as H. by rewrite Hflow in H. }
  split; [|done].
  unfold process_user_message.
  rewrite bind_unfold, on_sessions_run, load_session_run.
  cbn [fst snd]. rewrite with_sessions_same. fold s.
  rewrite bind_unfold, on_sessions_run, should_show_welcome_info.
  cbn [fst snd]. rewrite with_sessions_same. rewrite bind_unfold.
  cbn [mret M_ret].
  destruct (recent_context (last8 (conversation_history s)))
    as [history_messages texts] eqn:Hctx.
  unfold hist in Hflow. cbn [fst] in Hflow.
  cbn [String.eqb Ascii.eqb Bool.eqb].
  by rewrite bind_unfold, Hflow.
Qed.

(** *** Tool results inside an info turn *)

Lemma llm_invoke_run (ts : toolset) (msgs : list message) (w : world) :
  llm_invoke E ts msgs w =
  (llm E (length (llm_calls w)) ts msgs,
   {| sessions := sessions w; llm_calls := llm_calls w ++ [(ts, msgs)];
      tool_modules := tool_modules w |}).
Proof. reflexivity. Qed.

Lemma run_tool_call_answers (call : tool_call) (w w' : world) (m : message) :
  run_tool_call E call w = (Ok m, w') → ∃ text, m = ToolMessage text (tc_id call).
Proof.
  unfold run_tool_call. destruct (tools_by_name E !! tc_name call) as [t|].
  - rewrite bind_unfold. unfold try_except.
    destruct (on_tools (invoke t (tc_args call)) w) as [[r|e] v]; simpl;
      intros H; injection H as <- _; eauto.
  - intros H. injection H as <- _. eauto.
Qed.

(** X15. The tool loop answers every requested call with one tool message
    that carries the call's id, in the order of the calls. *)
Theorem tool_results_keep_call_order (calls : list tool_call) (w : world) :
  ∃ ms, (run_tool_calls E calls w).1 = Ok ms ∧
        Forall2 (λ call m, ∃ text, m = ToolMessage text (tc_id call)) calls ms.
Proof.
  destruct (run_tool_calls_total E calls w) as (ms & v & Hrun & Hall).
  exists ms. rewrite Hrun. split; [done|].
  eapply Forall2_impl; [exact Hall|].
  intros call m (wi & wi' & Hcall). by eapply run_tool_call_answers.
Qed.

(** X16. When the first reply asks for tools, the second request is the
    first one followed by that reply and by the tool messages, one per call
    and in call order.  When it asks for none, no tool runs and a single
    request is logged. *)
Theorem info_flow_feeds_results_back (p : profile) (text uid : string)
    (hist : list message) (w : world) (a : ai_message) :
  let first_request := [SystemMessage INFO_FLOW_PROMPT] ++ hist ++ [HumanMessage text] in
  let out := _run_info_flow E p text uid hist w in
  llm E (length (llm_calls w)) InformationTools first_request = Ok a →
  (tool_calls a = [] →
     out.1 = Ok (content a) ∧
     tool_modules out.2 = tool_modules w ∧
     llm_calls out.2 = llm_calls w ++ [(InformationTools, first_request)]) ∧
  (tool_calls a ≠ [] →
     ∃ ms,
       Forall2 (λ call m, ∃ text, m = ToolMessage text (tc_id call)) (tool_calls a) ms ∧
       llm_calls out.2 =
         llm_calls w ++
         [(InformationTools, first_request);
          (InformationTools, first_request ++ [as_message a] ++ ms)]).
Proof.
  intros first_request out Hfirst. unfold out, _run_info_flow. fold first_request.
  rewrite bind_unfold, llm_invoke_run, Hfirst. split.
  - intros ->. done.
  - intros Hcalls. destruct (tool_calls a) as [|call rest] eqn:Ha; [done|].
    rewrite bind_unfold.
    destruct (run_tool_calls_total E (call :: rest)
                {| sessions := sessions w;
                   llm_calls := llm_calls w ++ [(InformationTools, first_request)];
                   tool_modules := tool_modules w |}) as (ms & v & Hrun & Hall).
    rewrite Hrun. exists ms. split.
    + eapply Forall2_impl; [exact Hall|].
      intros c m (wi & wi' & Hcall). by eapply run_tool_call_answers.
    + rewrite bind_unfold, llm_invoke_run. cbn [llm_calls].
      match goal with
      | |- context [match ?x with Ok _ => _ | Raise _ => _ end] => destruct x
      end; simpl; by rewrite <- app_assoc.
Qed.

(** *** What a graph run yields *)

Lemma agent_update (nd : node) (st : agent_state) (w w' : world) (update : list message) :
  nd = empathy_agent ∨ nd = info_agent →
  run_node E nd st w = (Ok update, w') →
  ∃ ai, update = [as_message ai].
Proof.
  intros [-> | ->]; simpl; unfold empathy_node, info_node; rewrite bind_unfold;
    destruct (llm_invoke E _ _ w) as [[ai|e] w1]; intros H; try discriminate;
    injection H as <- _; eauto.
Qed.

Lemma should_continue_end (st : agent_state) (ai : ai_message) :
  _should_continue (add_messages st [as_message ai]) = END → tool_calls ai = [].
Proof.
  unfold _should_continue, add_messages. simpl. rewrite last_snoc. unfold as_message.
  destruct (tool_calls ai); [done|discriminate].
Qed.

Lemma should_continue_values (st : agent_state) :
  _should_continue st = "tools" ∨ _should_continue st = END.
Proof.
  unfold _should_continue. destruct (last (messages st)) as [[| | ? [|]|]|]; auto.
Qed.

Lemma stream_from_final (steps : nat) :
  ∀ nd st w events w',
    stream_from E steps nd st w = (Ok events, w') →
    ∃ init name text, events = init ++ [(name, [AIMessage text []])].
Proof.
  induction steps as [|steps IH]; intros nd st w events w'; simpl; [discriminate|].
  rewrite bind_unfold.
  destruct (run_node E nd st w) as [[update|e] w1] eqn:Hnode; [|discriminate].
  destruct (next_node nd (add_messages st update)) as [[nd'|]|] eqn:Hnext;
    [| |discriminate].
  - rewrite bind_unfold.
    destruct (stream_from E steps nd' _ w1) as [[events'|e] w2] eqn:Hrest; [|discriminate].
    intros H. injection H as <- _.
    destruct (IH _ _ _ _ _ Hrest) as (init & name & text & ->).
    exists ((node_name nd, update) :: init), name, text. done.
  - intros H. injection H as <- _.
    assert (Hagent : nd = empathy_agent ∨ nd = info_agent).
    { destruct nd; auto; discriminate. }
    destruct (agent_update nd st w w1 update Hagent Hnode) as (ai & ->).
    assert (Hend : _should_continue (add_messages st [as_message ai]) = END).
    { destruct (should_continue_values (add_messages st [as_message ai])) as [Hb|Hb]; [|done].
      destruct Hagent as [-> | ->]; simpl in Hnext; rewrite Hb in Hnext; discriminate. }
    apply should_continue_end in Hend.
    exists [], (node_name nd), (content ai). unfold as_message. by rewrite Hend.
Qed.

Lemma collect_response_final (init : list event) (name text acc : string) :
  collect_response (init ++ [(name, [AIMessage text []])]) acc =
  match collect_response init acc with
  | Ok _ => Ok text
  | Raise e => Raise e
  end.
Proof.
  revert acc. induction init as [|[n update] rest IH]; intros acc; simpl; [done|].
  destruct (last update) as [[| | ? [|]|]|]; auto.
Qed.

Lemma collect_response_nonempty (events : list event) (acc : string) :
  Forall (λ ev : event, ev.2 ≠ []) events → ∃ t, collect_response events acc = Ok t.
Proof.
  intros Hall. revert acc. induction Hall as [|[n update] rest Hne _ IH]; intros acc; simpl.
  - eauto.
  - destruct (last update) as [m|] eqn:Hlast.
    + destruct m as [| | ? [|]|]; apply IH.
    + apply last_None in Hlast. done.
Qed.

(** X17. A graph run that ends normally ends with a message of the agent
    that carries no tool calls, and the text read off the streamed events is
    the text of that message; reading the events can only fail on an event
    whose update is empty. *)
Theorem graph_reply_is_final_message (inputs : agent_state) (w w' : world)
    (events : list event) :
  app_stream E inputs w = (Ok events, w') →
  ∃ name text,
    last events = Some (name, [AIMessage text []]) ∧
    (∀ t, collect_response events "" = Ok t → t = text) ∧
    (Forall (λ ev : event, ev.2 ≠ []) events → collect_response events "" = Ok text).
Proof.
  unfold app_stream. destruct (entry_node inputs) as [nd|]; [|discriminate].
  intros Hrun. destruct (stream_from_final _ _ _ _ _ _ Hrun) as (init & name & text & ->).
  exists name, text. split; [by rewrite last_snoc|].
  rewrite collect_response_final. split.
  - intros t. destruct (collect_response init ""); [|discriminate].
    intros H. by injection H.
  - intros Hall. apply Forall_app in Hall as [Hinit _].
    destruct (collect_response_nonempty init "" Hinit) as (t & ->). done.
Qed.

(** X18. The information branch of the graph never runs a tool: a run
    entered in info mode that ends normally consists of the single reply of
    the information agent, and no run ever reaches the [info_tools] node. *)
Theorem graph_never_reaches_info_tools (inputs : agent_state) (w w' : world)
    (events : list event) :
  app_stream E inputs w = (Ok events, w') →
  ("info_tools" ∉ events.*1) ∧
  (current_mode inputs = "info" →
   ∃ text, events = [("info_agent", [AIMessage text []])]).
Proof.
  assert (Hnever : ∀ steps nd st w events w',
            nd ≠ info_tools →
            stream_from E steps nd st w = (Ok events, w') → "info_tools" ∉ events.*1).
  { induction steps as [|steps IH]; intros nd st w0 evs w0' Hnd; simpl; [discriminate|].
    rewrite bind_unfold.
    destruct (run_node E nd st w0) as [[update|e] w1]; [|discriminate].
    assert (Hname : node_name nd ≠ "info_tools") by (destruct nd; done).
    destruct (next_node nd (add_messages st update)) as [[nd'|]|] eqn:Hnext;
      [| |discriminate].
    - rewrite bind_unfold.
      destruct (stream_from E steps nd' _ w1) as [[events'|e] w2] eqn:Hrest; [|discriminate].
      intros H. injection H as <- _. rewrite fmap_cons. simpl.
      apply not_elem_of_cons. split; [done|].
      eapply IH; [|exact Hrest].
      destruct nd; simpl in Hnext.
      + destruct (should_continue_values (add_messages st update)) as [Hb|Hb];
          rewrite Hb in Hnext; simpl in Hnext; [injection Hnext as <-; done|discriminate].
      + destruct (should_continue_values (add_messages st update)) as [Hb|Hb];
          rewrite Hb in Hnext; discriminate.
      + injection Hnext as <-. done.
      + done.
    - intros H. injection H as <- _. simpl.
      apply not_elem_of_cons. split; [done|]. apply not_elem_of_nil. }
  unfold app_stream. intros Hrun. split.
  - destruct (entry_node inputs) as [nd|] eqn:Hentry; [|discriminate].
    eapply Hnever; [|exact Hrun].
    unfold entry_node, _route_mode in Hentry.
    destruct (String.eqb (current_mode inputs) "info"); simpl in Hentry;
      injection Hentry as <-; done.
  - intros Hmode. unfold entry_node, _route_mode in Hrun. rewrite Hmode in Hrun.
    simpl in Hrun. destruct (recursion_limit E) as [|steps]; [discriminate|].
    simpl in Hrun. rewrite bind_unfold in Hrun.
    destruct (info_node E inputs w) as [[update|e] w1] eqn:Hnode; [|discriminate].
    destruct (agent_update info_agent inputs w w1 update (or_intror eq_refl) Hnode)
      as (ai & ->).
    destruct (should_continue_values (add_messages inputs [as_message ai])) as [Hb|Hb];
      rewrite Hb in Hrun; simpl in Hrun; [discriminate|].
    apply should_continue_end in Hb. injection Hrun as <- _.
    exists (content ai). unfold as_message. by rewrite Hb.
Qed.

(** *** Committing a chat turn *)

Lemma greeting_is_one_of_five (uid : string) (st : store) (text : string) :
  (get_welcome_message (wall_clock E) uid st).1 = Ok text →
  let title := welcome_title (load_session_from (files st) uid) in
  text = greeting_first title ∨ text = greeting_plain title ∨
  text = greeting_continue title ∨ text = greeting_rested title ∨
  text = greeting_long_time title.
Proof.
  unfold get_welcome_message, load_session, datetime_now. run_monad.
  destruct (given (last_visit _)); simpl.
  - destruct (fromisoformat _ _); simpl.
    + repeat case_match; intros Heq; injection Heq as <-; auto.
    + intros Heq; injection Heq as <-; auto.
  - intros Heq; injection Heq as <-; auto.
Qed.

Lemma greeting_nonempty (uid : string) (st : store) (text : string) :
  (get_welcome_message (wall_clock E) uid st).1 = Ok text → given (Some text) = Some text.
Proof.
  assert (Happ : ∀ a b : string, b ≠ "" → nonempty (a +:+ b) = true).
  { intros a b Hb. destruct a; simpl; [|done]. destruct b; done. }
  intros Hres. apply greeting_is_one_of_five in Hres. simpl in Hres. simpl.
  destruct Hres as [->|[->|[->|[->| ->]]]]; try reflexivity;
    unfold greeting_continue, greeting_rested, greeting_long_time;
    by rewrite Happ.
Qed.

(** X19. A chat turn whose graph run yields a text returns it, behind the
    greeting when the welcome check says one is due, and commits the turn.
    When the path of the user id can be opened, the history grows by the user
    text and by exactly the text returned, the last visit is set, and the
    profile and the sessions kept in other files stay; when it cannot, the
    writes are lost and the files are as before.  A welcome check that raises
    ends the turn at once: its exception leaves [process_user_message], and
    neither the model nor the files have been touched. *)
Theorem chat_turn_commits (uid text mode r : string) (w w1 : world) :
  mode ≠ "info" →
  (events ← app_stream E (graph_inputs uid text mode w);
   of_result (collect_response events "")) w = (Ok r, w1) →
  let c := wall_clock E in
  let s := load_session_from (files (sessions w)) uid in
  let shown := _should_show_welcome E s mode (sessions w) in
  let out := process_user_message E uid text mode w in
  let after := load_session_from (files (sessions out.2)) uid in
  match shown.1 with
  | Raise e =>
      out.1 = Raise e ∧
      files (sessions out.2) = files (sessions w) ∧
      llm_calls out.2 = llm_calls w ∧ tool_modules out.2 = tool_modules w
  | Ok due =>
      ∃ response t1 t2 t3,
        out.1 = Ok response ∧
        (due = false → response = r) ∧
        (due = true →
           ∃ greeting, (get_welcome_message c uid shown.2).1 = Ok greeting ∧
             response = if nonempty r then greeting +:+ newline +:+ newline +:+ r
                        else greeting) ∧
        llm_calls out.2 = llm_calls w1 ∧ tool_modules out.2 = tool_modules w1 ∧
        match file_of (files (sessions w)) uid with
        | Some path =>
            conversation_history after =
              conversation_history s ++
              [HMsg t1 "user" text; HMsg t2 "assistant" response] ∧
            last_visit after = Some t3 ∧
            user_profile after = user_profile s ∧
            (∀ other, file_of (files (sessions w)) other ≠ Some path →
               load_session_from (files (sessions out.2)) other =
               load_session_from (files (sessions w)) other)
        | None => files (sessions out.2) = files (sessions w)
        end
  end.
Proof.
  intros Hmode Hdrive c s shown out after.
  assert (Hblind : session_blind
            (events ← app_stream E (graph_inputs uid text mode w);
             of_result (collect_response events ""))).
  { apply blind_bind; [apply blind_app_stream|]. intros; apply blind_of_result. }
  assert (Hm : String.eqb mode "info" = false) by by apply String.eqb_neq.
  destruct (should_show_welcome_reads E s mode (sessions w)) as (rb & st1 & Hshow & Hf1).
  unfold shown. rewrite Hshow. cbn [fst snd].
  destruct rb as [b|e'].
  2:{ destruct (welcome_fault_outcome E uid text mode w e') as (st1' & Hf & Hout).
      { fold s. by rewrite Hshow. }
      unfold out. rewrite Hout. done. }
  assert (Hprelude : ∃ wt st2, files st2 = files (sessions w) ∧
            (if b
             then w0 ← on_sessions (get_welcome_message (wall_clock E) uid); mret (Some w0)
             else mret None) (with_sessions st1 w) = (Ok wt, with_sessions st2 w) ∧
            (b = false → wt = None) ∧
            (b = true → ∃ g, (get_welcome_message c uid st1).1 = Ok g ∧ wt = Some g)).
  { destruct b.
    - destruct (get_welcome_message_reads E uid st1) as (t & st2 & Hw & Hf2).
      exists (Some t), st2. split; [congruence|]. split; [|split; [done|]].
      + rewrite bind_unfold, on_sessions_run. cbn [sessions with_sessions].
        rewrite Hw. done.
      + intros _. exists t. unfold c. rewrite Hw. done.
    - exists None, st1. split; [done|]. split; [done|]. split; [done|discriminate]. }
  destruct Hprelude as (wt & st2 & Hf2 & Hpre & Hnone & Hsome).
  set (response :=
         match given wt with
         | Some welcome_text =>
             if nonempty r then welcome_text +:+ newline +:+ newline +:+ r
             else welcome_text
         | None => r
         end).
  destruct (commit_turn_run uid text response (with_sessions st2 w1))
    as (fs & Hcommit & Hload).
  cbn [sessions with_sessions] in Hload. rewrite Hf2 in Hload. fold s in Hload.
  assert (Hout : out = (Ok response,
            with_sessions {| files := fs;
                             clock_reads := S (S (S (clock_reads st2))) |} w1)).
  { unfold out, process_user_message.
    rewrite bind_unfold, on_sessions_run, load_session_run.
    cbn [fst snd]. rewrite with_sessions_same. fold s.
    rewrite bind_unfold, on_sessions_run, Hshow. cbn [fst snd].
    rewrite bind_unfold, Hpre.
    unfold graph_inputs in Hdrive, Hblind. fold s in Hdrive, Hblind.
    destruct (recent_context (last8 (conversation_history s)))
      as [history_messages texts] eqn:Hctx.
    cbn [fst snd] in Hdrive, Hblind.
    rewrite Hm. rewrite bind_unfold. unfold try_except.
    specialize (Hblind w st2). rewrite Hdrive in Hblind. cbn [fst snd] in Hblind.
    rewrite bind_unfold in Hblind. rewrite bind_unfold.
    destruct (app_stream E _ (with_sessions st2 w)) as [[events|e'] w'] eqn:Hs;
      [|discriminate].
    unfold of_result in Hblind. rewrite bind_unfold. unfold of_result at 1.
    destruct (collect_response events "") as [t|e'']; [|discriminate].
    injection Hblind as -> ->. cbn [mret M_ret].
    etrans; [|exact Hcommit]. reflexivity. }
  exists response. unfold after. rewrite Hout. cbn [fst snd sessions with_sessions files].
  eexists _, _, _. split; [done|]. split; [|split; [|split; [done|split; [done|]]]].
  - intros ->. unfold response. by rewrite Hnone.
  - intros ->. destruct (Hsome eq_refl) as (g & Hg & ->).
    exists g. split; [done|]. unfold response.
    by rewrite (greeting_nonempty uid st1 g Hg).
  - destruct (file_of (files (sessions w)) uid) as [path|]; [|done].
    destruct Hload as [Hload Hother]. rewrite Hload.
    cbn [conversation_history last_visit user_profile].
    split; [reflexivity|]. split; [reflexivity|]. split; [reflexivity|]. exact Hother.
Qed.

End Engine.

Lemma info_turn_commits_witness :
  let out := process_user_message Scenario.direct_llm "u1" "화장 장려금" "info"
               Scenario.fresh_world in
  out.1 = Ok "말씀해 주셔서 고마워요." ∧
  conversation_history (load_session_from (files (sessions out.2)) "u1") =
    [HMsg "2024-01-01T00:00:00" "user" "화장 장려금";
     HMsg "2024-01-01T00:00:00" "assistant" "말씀해 주셔서 고마워요."].
Proof.
  intros out.
  destruct (info_turn_commits Scenario.direct_llm "u1" "화장 장려금" "말씀해 주셔서 고마워요."
              Scenario.fresh_world
              (_run_info_flow Scenario.direct_llm
                 (user_profile (load_session_from (files (sessions Scenario.fresh_world)) "u1"))
                 "화장 장려금" "u1" [] Scenario.fresh_world).2)
    as (Hout & _ & _ & _ & Hfile).
  - vm_compute. reflexivity.
  - split; [exact Hout|].
    change (file_of (files (sessions Scenario.fresh_world)) "u1") with (Some "u1") in Hfile.
    destruct Hfile as (Hhist & _). fold out in Hhist. rewrite Hhist. reflexivity.
Defined.

Lemma info_turn_fault_commits_nothing_witness :
  (process_user_message Scenario.llm_down "u1" "화장 장려금" "info" Scenario.fresh_world).1 =
    Raise "Connection error." ∧
  files (sessions (process_user_message Scenario.llm_down "u1" "화장 장려금" "info"
                     Scenario.fresh_world).2) = ∅.
Proof.
  destruct (info_turn_fault_commits_nothing Scenario.llm_down "u1" "화장 장려금"
              "Connection error." Scenario.fresh_world
              (_run_info_flow Scenario.llm_down
                 (user_profile (load_session_from (files (sessions Scenario.fresh_world)) "u1"))
                 "화장 장려금" "u1" [] Scenario.fresh_world).2)
    as (Hout & Hkeep).
  - vm_compute. reflexivity.
  - rewrite Hout. cbn [fst snd]. split; [reflexivity|]. rewrite Hkeep. reflexivity.
Defined.

Lemma info_flow_feeds_results_back_witness :
  length (llm_calls (_run_info_flow Scenario.eager_llm ∅ "상속 순위" "u1" []
                       Scenario.fresh_world).2) = 2.
Proof.
  destruct (info_flow_feeds_results_back Scenario.eager_llm ∅ "상속 순위" "u1" []
              Scenario.fresh_world
              {| content := ""; tool_calls := [Scenario.legacy_call] |} eq_refl)
    as [_ Htools].
  destruct Htools as (ms & _ & Hlog); [discriminate|].
  rewrite Hlog. reflexivity.
Defined.

Lemma graph_reply_is_final_message_witness :
  collect_response [("empathy_agent", [AIMessage "말씀해 주셔서 고마워요." []])] "" =
  Ok "말씀해 주셔서 고마워요.".
Proof.
  destruct (graph_reply_is_final_message Scenario.direct_llm
              (graph_inputs "u1" "나 너무 심심해" "chat" Scenario.fresh_world)
              Scenario.fresh_world
              (app_stream Scenario.direct_llm
                 (graph_inputs "u1" "나 너무 심심해" "chat" Scenario.fresh_world)
                 Scenario.fresh_world).2
              [("empathy_agent", [AIMessage "말씀해 주셔서 고마워요." []])])
    as (name & text & Hlast & _ & Hok).
  - vm_compute. reflexivity.
  - simpl in Hlast. injection Hlast as _ <-. apply Hok.
    constructor; [discriminate|constructor].
Defined.

Lemma graph_never_reaches_info_tools_witness :
  ∃ text,
    [("info_agent", [AIMessage "말씀해 주셔서 고마워요." []])] =
    [("info_agent", [AIMessage text []])].
Proof.
  destruct (graph_never_reaches_info_tools Scenario.direct_llm
              (graph_inputs "u1" "화장 장려금" "info" Scenario.fresh_world)
              Scenario.fresh_world
              (app_stream Scenario.direct_llm
                 (graph_inputs "u1" "화장 장려금" "info" Scenario.fresh_world)
                 Scenario.fresh_world).2
              [("info_agent", [AIMessage "말씀해 주셔서 고마워요." []])])
    as (_ & Hone).
  - vm_compute. reflexivity.
  - apply Hone. reflexivity.
Defined.

Lemma chat_turn_commits_witness :
  (process_user_message Scenario.direct_llm "u1" "나 너무 심심해" "chat"
     Scenario.fresh_world).1 = Ok "말씀해 주셔서 고마워요.".
Proof.
  assert (Hmode : "chat" ≠ "info") by discriminate.
  assert (Hdrive :
            (events ← app_stream Scenario.direct_llm
                        (graph_inputs "u1" "나 너무 심심해" "chat" Scenario.fresh_world);
             of_result (collect_response events "")) Scenario.fresh_world =
            (Ok "말씀해 주셔서 고마워요.",
             ((events ← app_stream Scenario.direct_llm
                          (graph_inputs "u1" "나 너무 심심해" "chat" Scenario.fresh_world);
               of_result (collect_response events "")) Scenario.fresh_world).2))
    by (vm_compute; reflexivity).
  pose proof (chat_turn_commits Scenario.direct_llm "u1" "나 너무 심심해" "chat"
                "말씀해 주셔서 고마워요." Scenario.fresh_world _ Hmode Hdrive) as H.
  cbv zeta in H.
  change (_should_show_welcome Scenario.direct_llm
            (load_session_from (files (sessions Scenario.fresh_world)) "u1") "chat"
            (sessions Scenario.fresh_world))
    with (Ok false, sessions Scenario.fresh_world) in H.
  cbn [fst] in H.
  destruct H as (response & t1 & t2 & t3 & Hout & Hplain & _).
  rewrite Hout. f_equal. apply Hplain. reflexivity.
Defined.

Lemma no_welcome_within_cooldown_witness :
  (_should_show_welcome Scenario.llm_down
     (load_session_from
        (files (update_last_visit Scenario.fixed_clock "u1" Scenario.returning_user).2) "u1")
     "chat"
     (update_last_visit Scenario.fixed_clock "u1" Scenario.returning_user).2).1 = Ok false.
Proof.
  apply (no_welcome_within_cooldown Scenario.llm_down "u1" "chat" Scenario.returning_user).
  - reflexivity.
  - vm_compute. discriminate.
Defined.

End ConversationEngineExtra.

(** * Further properties of the companion tools *)

Module RecommendBaExtra.

Import RecommendBa RecommendBaFacts.

Section Tools.

Variable E : env.

Lemma lookup_touch_other (uid other : string) (d : gmap string (gset string)) :
  other ≠ uid → default ∅ (touch uid d !! other) = default ∅ (d !! other).
Proof. intros Hne. unfold touch. by rewrite lookup_insert_ne. Qed.

Lemma lookup_update_set_other (uid other : string) (seen : gset string)
    (d : gmap string (gset string)) :
  other ≠ uid →
  default ∅ (update_set uid seen (touch uid d) !! other) = default ∅ (d !! other).
Proof.
  intros Hne. unfold update_set, touch. by rewrite !lookup_insert_ne.
Qed.

(** X20. A recommender call only ever adds to the set of the user it is
    called for: that set grows (or stays), the sets of users under another
    cache key stay, the asked-questions cache is not touched, and one query is
    logged when the index is connected, none otherwise. *)
Theorem recommend_touches_only_its_user (emo mob uid : string) (st : state) :
  let st' := (recommend_activities_tool E emo mob uid st).2 in
  recommended_to st uid ⊆ recommended_to st' uid ∧
  (∀ other, cache_key other ≠ cache_key uid →
     recommended_to st' other = recommended_to st other) ∧
  asked_questions_by_user st' = asked_questions_by_user st ∧
  queries st' = (if ready E then queries st ++ [activity_request E emo mob] else queries st).
Proof.
  intros st'. unfold st'. rewrite recommend_activities_tool_run.
  destruct (ready E); [|done].
  destruct (index_query E _ _) as [res|e]; [|done].
  destruct (pick_activities _ res ∅ []) as [seen [|l ls]]; cbn [fst snd].
  - unfold recommended_to. cbn [recommended_activities_by_user asked_questions_by_user queries].
    rewrite lookup_touch. split; [done|]. split; [|done].
    intros other Hne. by rewrite lookup_touch_other.
  - unfold recommended_to. cbn [recommended_activities_by_user asked_questions_by_user queries].
    rewrite lookup_update_set. split; [set_solver|]. split; [|done].
    intros other Hne. by rewrite lookup_update_set_other.
Qed.

(** X21. When no emotion rule and no mobility rule matches, the recommender
    queries for the default feeling, "calm", under the default energy
    ceiling 5, and asks for eight candidates. *)
Theorem activity_request_defaults (emo mob : string) :
  Forall (λ kv : string * list string, contains kv.1 emo = false)
         (emotion_to_feeling_tags (RULES E)) →
  Forall (λ kv : string * option Z, contains kv.1 mob = false)
         (mobility_to_energy_range (RULES E)) →
  activity_request E emo mob =
  {| rq_text := "효과: 평온/이완 인 활동"; rq_top_k := 8; rq_filter := ActivityUpTo 5 |}.
Proof.
  intros Hemo Hmob. unfold activity_request.
  assert (Htags : matching_tags E emo = []).
  { unfold matching_tags. induction Hemo as [|kv rest Hkv _ IH]; simpl; [done|].
    by rewrite Hkv. }
  assert (Hlimit : energy_limit_of E mob = 5%Z).
  { unfold energy_limit_of. generalize 5%Z as acc.
    induction Hmob as [|kv rest Hkv _ IH]; intros acc; simpl; [done|].
    rewrite Hkv. apply IH. }
  rewrite Htags, Hlimit. reflexivity.
Qed.

(** X22. The question search asks for between four and six candidates
    whatever depth it is given, and for [3 + depth] when the depth is within
    one to three. *)
Theorem question_request_top_k (ctx : string) (depth : Z)
    (recent : option (list string)) :
  let rq := question_request E ctx depth recent in
  (4 ≤ rq_top_k rq ≤ 6)%Z ∧
  ((1 ≤ depth ≤ 3)%Z → rq_top_k rq = (3 + depth)%Z) ∧
  ((depth < 1)%Z → rq_top_k rq = 4%Z) ∧
  ((3 < depth)%Z → rq_top_k rq = 6%Z) ∧
  rq_filter rq = Question.
Proof.
  unfold question_request, clamp_depth. simpl.
  repeat split; try lia.
Qed.

(** *** The question search *)

Lemma question_selection_picks (ctx : string) (depth : Z) (uid : string)
    (recent : option (list string)) (st : state) :
  ∃ picks : list (string * pyval),
    question_selection_in E ctx depth uid recent st =
      (list_to_set picks.*1, map (λ p, question_line p.1 p.2) picks) ∧
    (∀ q, q ∈ picks.*1 → q ∉ asked_by st uid).
Proof.
  unfold question_selection_in.
  assert (Hnone : ∃ picks : list (string * pyval),
            ((∅ : gset string), ([] : list string)) =
              (list_to_set picks.*1, map (λ p, question_line p.1 p.2) picks) ∧
            (∀ q, q ∈ picks.*1 → q ∉ asked_by st uid)).
  { exists []. split; [done|]. intros q Hq. by apply elem_of_nil in Hq. }
  destruct (ready E); [|exact Hnone].
  destruct (index_query E _ _) as [res|e]; [|exact Hnone].
  destruct (pick_questions_picks (asked_by st uid) res ∅ []) as (picks & Heq & Hfrom).
  exists picks. rewrite Heq. split; [f_equal; set_solver|].
  intros q Hq. by destruct (Hfrom q Hq).
Qed.

Lemma asked_after_question_tool (ctx : string) (depth : Z) (uid : string)
    (recent : option (list string)) (st : state) :
  asked_by (search_empathy_questions_tool E ctx depth uid recent st).2 uid =
  asked_by st uid ∪ (question_selection_in E ctx depth uid recent st).1.
Proof.
  destruct (question_selection_picks ctx depth uid recent st) as (picks & Hsel & _).
  revert Hsel. rewrite search_empathy_questions_tool_run. unfold question_selection_in.
  destruct (ready E); cbn [negb]; [|set_solver].
  cbv zeta. destruct (index_query E _ _) as [res|e]; [|set_solver].
  destruct (pick_questions _ res ∅ []) as [seen questions]. cbn [fst snd].
  intros Hsel. injection Hsel as -> ->.
  destruct (map _ picks) as [|l ls] eqn:Hmap.
  - destruct picks; [|discriminate]. simpl.
    destruct res as [|m ms].
    + cbn [snd]. rewrite asked_after_record. set_solver.
    + destruct (fallback_lines _); cbn [snd].
      * rewrite asked_after_record. set_solver.
      * rewrite asked_after_touch. set_solver.
  - cbn [snd]. by rewrite asked_after_record.
Qed.

(** X23. A question printed as fresh is not selected as fresh again: of two
    calls made one after the other for the same user, the second selects no
    question the first selected.  A call that selects fresh questions prints
    exactly their lines, and the user's set afterwards is the old set plus
    the selection. *)
Theorem fresh_questions_never_repeat (ctx : string) (depth : Z) (uid : string)
    (recent : option (list string)) (st : state) :
  let run1 := search_empathy_questions_tool E ctx depth uid recent st in
  let sel1 := question_selection_in E ctx depth uid recent st in
  let sel2 := question_selection_in E ctx depth uid recent run1.2 in
  sel1.1 ## sel2.1 ∧
  asked_by run1.2 uid = asked_by st uid ∪ sel1.1 ∧
  (sel1.2 ≠ [] → run1.1 = Ok (join newline sel1.2)).
Proof.
  intros run1 sel1 sel2. split; [|split].
  - destruct (question_selection_picks ctx depth uid recent run1.2)
      as (picks & Hsel & Hfresh).
    fold sel2 in Hsel. rewrite Hsel. simpl.
    intros q Hq1 Hq2. apply elem_of_list_to_set in Hq2.
    apply (Hfresh q Hq2). unfold run1. rewrite asked_after_question_tool.
    fold sel1. set_solver.
  - apply asked_after_question_tool.
  - unfold run1, sel1, question_selection_in.
    rewrite search_empathy_questions_tool_run.
    destruct (ready E); [|done]. cbv zeta.
    destruct (index_query E _ _) as [res|e]; [|done].
    destruct (pick_questions _ res ∅ []) as [seen [|l ls]]; [done|]. done.
Qed.

Lemma fallback_lines_nonempty (ms : list vmatch) (qs : list string) :
  fallback_lines ms = Ok qs → Forall (λ q, q ≠ "") qs.
Proof.
  revert qs. induction ms as [|m rest IH]; intros qs; simpl.
  - intros H. injection H as <-. constructor.
  - unfold fallback_line. destruct (m_metadata m) as [meta|]; [|discriminate].
    destruct (fallback_lines rest) as [ls|e]; [|discriminate].
    intros H. injection H as <-. constructor; [discriminate|by apply IH].
Qed.

(** X24. The question search never returns the empty string; when the
    index answers with no candidate at all it returns the fixed "no suitable
    question" text and leaves the user's set as it was. *)
Theorem question_tool_never_returns_empty (ctx : string) (depth : Z) (uid : string)
    (recent : option (list string)) (st : state) :
  let run := search_empathy_questions_tool E ctx depth uid recent st in
  run.1 ≠ Ok "" ∧
  (ready E = true →
   index_query E (length (queries st)) (question_request E ctx depth recent) = Ok [] →
   run.1 = Ok NO_QUESTION ∧ asked_by run.2 uid = asked_by st uid).
Proof.
  intros run. split.
  - unfold run. rewrite search_empathy_questions_tool_run.
    destruct (ready E); [|discriminate]. cbv zeta.
    destruct (index_query E _ _) as [res|e]; [|discriminate].
    destruct (pick_questions_picks (asked_by st uid) res ∅ []) as (picks & Heq & _).
    rewrite Heq. cbn [fst snd app].
    destruct picks as [|p ps]; cbn [map].
    + destruct res as [|m ms]; [discriminate|].
      destruct (fallback_lines (take 3 (m :: ms))) as [qs|e] eqn:Hfb; [|discriminate].
      cbn [fst]. destruct qs as [|q qs']; [discriminate|].
      apply fallback_lines_nonempty in Hfb. apply Forall_cons in Hfb as [Hq _].
      intros H. injection H as H. by apply (join_cons_nonempty newline q qs').
    + cbn [fst]. intros H. injection H as H. revert H.
      apply join_cons_nonempty. discriminate.
  - intros Hready Hq. unfold run. rewrite search_empathy_questions_tool_run.
    rewrite Hready. cbv zeta. rewrite Hq. cbn [pick_questions fst snd].
    split; [done|]. rewrite asked_after_record. set_solver.
Qed.



End Tools.

Lemma activity_request_defaults_witness :
  activity_request Scenario.question_env "막막함" "거동 불가" =
  {| rq_text := "효과: 평온/이완 인 활동"; rq_top_k := 8; rq_filter := ActivityUpTo 5 |}.
Proof.
  apply (activity_request_defaults Scenario.question_env "막막함" "거동 불가");
    constructor.
Defined.


End RecommendBaExtra.

(** * Further properties of the information tools *)

Module SearchInfoExtra.

Import SearchInfo SearchInfoFacts.

#[local] Instance str_le_total : Total str_le.
Proof.
  intros a b. unfold str_le. destruct (String.leb_total a b) as [H|H]; rewrite H; auto.
Qed.

Lemma elem_of_concat {A} (x : A) (ls : list (list A)) :
  x ∈ concat ls ↔ ∃ l, l ∈ ls ∧ x ∈ l.
Proof.
  induction ls as [|l ls IH]; simpl.
  - split; [intros H; by apply elem_of_nil in H|intros (l & H & _); by apply elem_of_nil in H].
  - rewrite elem_of_app, IH. split.
    + intros [H|(l' & H1 & H2)]; [exists l; split; [by left|done]|].
      exists l'. split; [by right|done].
    + intros (l' & [->|H1]%elem_of_cons & H2); [by left|right; eauto].
Qed.

Lemma elem_of_contained_regions (input r : string) (region_list : list string) :
  r ∈ contained_regions input region_list ↔
  r ∈ region_list ∧ (contains input r = true ∨ contains r input = true).
Proof.
  unfold contained_regions. rewrite !list_elem_of_In, filter_In, orb_true_iff. done.
Qed.

Section Tools.

Variable E : env.

(** X26. For a positive cap [n], region resolution never returns an empty
    list, and returns nothing exactly when neither pass finds a region.  When
    the containment pass finds regions, the result is its first [n] finds:
    canonical regions, each containing the input or contained in it. *)
Theorem find_matching_regions_result (input : string) (region_list : list string)
    (n : nat) :
  0 < n →
  let contained := contained_regions input region_list in
  let matched := find_matching_regions E input region_list n in
  (matched = None ↔
     contained = [] ∧ get_close_matches E input region_list n = []) ∧
  (∀ l, matched = Some l → l ≠ []) ∧
  (contained ≠ [] →
     ∃ l, matched = Some l ∧ l = take n contained ∧ length l ≤ n ∧
          ∀ r, r ∈ l → r ∈ region_list ∧
                       (contains input r = true ∨ contains r input = true)).
Proof.
  intros Hn contained matched.
  pose proof (find_matching_regions_two_passes E input region_list n Hn) as Htwo.
  fold matched contained in Htwo. rewrite Htwo.
  destruct contained as [|c cs] eqn:Hc.
  - split; [|split; [|done]].
    + destruct (get_close_matches E input region_list n); split;
        [done|done|discriminate|intros [_ H]; discriminate].
    + intros l. destruct (get_close_matches E input region_list n); [discriminate|].
      intros H. injection H as <-. discriminate.
  - split; [split; [discriminate|intros [H _]; discriminate]|]. split.
    + intros l H. injection H as <-. destruct n; [lia|]. discriminate.
    + intros _. exists (take n (c :: cs)). split; [done|]. split; [done|]. split.
      * rewrite length_take. lia.
      * intros r Hr. apply subseteq_take in Hr. rewrite <- Hc in Hr.
        by apply elem_of_contained_regions in Hr.
Qed.

(** X27. Without a usable region argument (none, or the empty string) the
    ordinance search issues one search filtered by document type alone and
    never looks at the region list.  With a region, a region file that lacks
    the ordinance list makes the tool raise the key error before any search
    is issued. *)
Theorem ordinance_region_edge_cases (q : string) (st : state) :
  ready E = true →
  let rq := {| namespace := "ordinance"; query := q; k := 3;
               filter := {[ "type" := FEq "Public_Funeral_Ordinance" ]} |} in
  let unfiltered :=
    (match similarity_search E (length (searches st)) rq with
     | Ok ds => Ok (Documents ds)
     | Raise e => Raise e
     end, {| searches := searches st ++ [rq] |}) in
  search_public_funeral_ordinance E q None st = unfiltered ∧
  search_public_funeral_ordinance E q (Some "") st = unfiltered ∧
  (∀ region, region ≠ "" →
     region_list_json E !! "public_funeral_ordinance" = None →
     search_public_funeral_ordinance E q (Some region) st =
     (Raise "'public_funeral_ordinance'", st)).
Proof.
  intros Hready rq unfiltered.
  assert (Hnone : ∀ region, given region = None →
            search_public_funeral_ordinance E q region st = unfiltered).
  { intros region Hgiven. unfold search_public_funeral_ordinance.
    rewrite Hready, Hgiven. cbn [negb].
    rewrite !bind_unfold. cbn [mret M_ret]. rewrite !bind_unfold, run_search_run.
    unfold unfiltered. fold rq. by destruct (similarity_search E _ rq). }
  split; [by apply Hnone|]. split; [by apply Hnone|].
  intros region Hregion Hmissing.
  assert (Hgiven : given (Some region) = Some region).
  { simpl. destruct region; [done|reflexivity]. }
  unfold search_public_funeral_ordinance, region_list_at.
  rewrite Hready, Hgiven, Hmissing. reflexivity.
Qed.

(** X28. A facility search given a single region (no list) issues exactly
    one sub-search with the whole budget of 10; given an empty list it raises
    the division error and issues no search. *)
Theorem facilities_single_region_and_empty_list (q : string) (region : option string)
    (st : state) :
  ready E = true →
  searches (search_funeral_facilities E q region None st).2 =
    searches st ++ [facility_request E q 10 (all_regions E) region] ∧
  (∃ out, (search_funeral_facilities E q region None st).1 = Ok (Documents out)) ∧
  search_funeral_facilities E q region (Some []) st =
    (Raise "integer division or modulo by zero", st).
Proof.
  intros Hready. unfold search_funeral_facilities. rewrite Hready. cbn [negb length].
  rewrite bind_unfold, search_each_region_run. cbn. split; [done|]. split; [eauto|done].
Qed.

Lemma unique_by_content_distinct (results_list : list document) :
  ∀ (unique_results : list document) (seen_content : gset string),
    (∀ x, x ∈ seen_content ↔ x ∈ page_content <$> unique_results) →
    NoDup (page_content <$> (unique_results ++ results_list)) →
    unique_by_content results_list unique_results seen_content =
    unique_results ++ results_list.
Proof.
  induction results_list as [|doc rest IH]; intros unique_results seen_content Hseen Hnd;
    simpl; [by rewrite app_nil_r|].
  rewrite fmap_app, fmap_cons in Hnd.
  apply NoDup_app in Hnd as (Hnd1 & Hdisj & Hnd2).
  apply NoDup_cons in Hnd2 as [Hdoc Hnd2].
  rewrite bool_decide_eq_false_2.
  - rewrite IH; [by rewrite <- app_assoc| |].
    + intros x. rewrite fmap_app, elem_of_app, elem_of_union, <- Hseen. simpl.
      rewrite list_elem_of_singleton, elem_of_singleton. tauto.
    + rewrite <- app_assoc. simpl. rewrite fmap_app, fmap_cons.
      apply NoDup_app. split; [done|]. split; [exact Hdisj|]. by apply NoDup_cons.
  - intros Hin. apply Hseen in Hin. apply (Hdisj _ Hin). by left.
Qed.

(** X29. Merging documents whose contents are already pairwise distinct
    returns them unchanged, and merging a merged list changes nothing. *)
Theorem unique_by_content_stable (results_list : list document) :
  (NoDup (page_content <$> results_list) →
   unique_by_content results_list [] ∅ = results_list) ∧
  unique_by_content (unique_by_content results_list [] ∅) [] ∅ =
  unique_by_content results_list [] ∅.
Proof.
  assert (Hid : ∀ l, NoDup (page_content <$> l) → unique_by_content l [] ∅ = l).
  { intros l Hnd. rewrite unique_by_content_distinct; [done| |done].
    intros x. simpl. split; intros Hx; [by apply elem_of_empty in Hx|by apply elem_of_nil in Hx]. }
  split; [apply Hid|]. apply Hid.
  destruct (unique_by_content_firsts results_list [] ∅) as (kept & -> & _ & Hnd & _).
  - intros x. simpl. split; intros Hx; [by apply elem_of_empty in Hx|by apply elem_of_nil in Hx].
  - constructor.
  - exact Hnd.
Qed.

(** X30. The list of all facility regions is sorted, has no duplicates, and
    holds exactly the regions listed under some key of the facilities
    file. *)
Theorem all_regions_sorted_and_distinct :
  Sorted str_le (all_regions E) ∧
  NoDup (all_regions E) ∧
  (∀ r, r ∈ all_regions E ↔
        ∃ key l, facilities_region_list_json E !! key = Some l ∧ r ∈ l).
Proof.
  unfold all_regions. split; [apply Sorted_merge_sort; apply _|]. split.
  - rewrite merge_sort_Permutation. apply NoDup_elements.
  - intros r. rewrite merge_sort_Permutation, elem_of_elements, elem_of_list_to_set.
    rewrite elem_of_concat. split.
    + intros (l & Hl & Hr). apply list_elem_of_fmap in Hl as ([key l'] & -> & Hkv).
      apply elem_of_map_to_list in Hkv. eauto.
    + intros (key & l & Hkv & Hr). exists l. split; [|done].
      apply list_elem_of_fmap. exists (key, l). split; [done|].
      by apply elem_of_map_to_list.
Qed.

End Tools.

Lemma find_matching_regions_result_witness :
  find_matching_regions Scenario.info_env "강남구"
    ["서울특별시 강남구"; "부산광역시 해운대구"] 3 = Some ["서울특별시 강남구"].
Proof.
  destruct (find_matching_regions_result Scenario.info_env "강남구"
              ["서울특별시 강남구"; "부산광역시 해운대구"] 3 ltac:(lia))
    as (_ & _ & Hfound).
  destruct Hfound as (l & -> & -> & _); [vm_compute; discriminate|].
  vm_compute. reflexivity.
Defined.

Lemma ordinance_region_edge_cases_witness :
  searches (search_public_funeral_ordinance Scenario.info_env "지원 대상" (Some "")
              Scenario.no_searches).2 =
  [{| namespace := "ordinance"; query := "지원 대상"; k := 3;
      filter := {[ "type" := FEq "Public_Funeral_Ordinance" ]} |}].
Proof.
  destruct (ordinance_region_edge_cases Scenario.info_env "지원 대상" Scenario.no_searches
              eq_refl) as (_ & -> & _).
  reflexivity.
Defined.

Lemma facilities_single_region_and_empty_list_witness :
  search_funeral_facilities Scenario.info_env "봉안당" None (Some []) Scenario.no_searches =
  (Raise "integer division or modulo by zero", Scenario.no_searches).
Proof.
  destruct (facilities_single_region_and_empty_list Scenario.info_env "봉안당" None
              Scenario.no_searches eq_refl) as (_ & _ & Hempty).
  exact Hempty.
Defined.

End SearchInfoExtra.
